(** * KidneyAI demo front-end: the result generator and the progress engine

    A shallow embedding of [src/App.tsx]:
    - the pure result generator ([generateConsistentResult] and the helpers it
      calls), and [getAlgorithmAccuracy];
    - the timer-driven part of the [App] component (the two analysis effects
      and [analyzeFile]) as an event loop over an explicit component state.

    Numbers.  A JavaScript number is an IEEE-754 binary64 value.  Quantities
    that stay integral in the source (the file hash, catalog indices, character
    codes, timer delays) are modelled in [Z], where [%] is the truncating
    remainder [Z.rem]; this is exact as long as the integers stay below 2^53,
    which holds for every file a browser can hand over.  Quantities that leave
    the integers (probability, confidence, accuracy, progress) are modelled by
    the kernel's binary64 floats, with the same operations in the same order
    as the source, so rounding is the source's rounding. *)

From Stdlib Require Import ZArith List String Ascii DecimalString Floats Lia Bool.
From stdpp Require Import base option list gmap strings.
Import ListNotations.

Set Warnings "-inexact-float".
#[local] Open Scope string_scope.
#[local] Open Scope Z_scope.

(** ** JavaScript primitives used by the source *)

(** A JavaScript string is a sequence of UTF-16 code units; [s.length] is the
    number of units and [charCodeAt] returns a unit. *)
Definition js_string := list N.

(** The code units of an ASCII literal. *)
Fixpoint utf16 (s : string) : js_string :=
  match s with
  | EmptyString => []
  | String c r => N_of_ascii c :: utf16 r
  end.

(** The binary64 value of an integer (exact below 2^53). *)
Definition number (z : Z) : float :=
  if z <? 0 then PrimFloat.opp (of_uint63 (Uint63.of_Z (- z)))
  else of_uint63 (Uint63.of_Z z).

(** [Math.max] and [Math.min]: NaN is contagious and +0 is above -0. *)
Definition Math_max (x y : float) : float :=
  if PrimFloat.is_nan x || PrimFloat.is_nan y then nan
  else if PrimFloat.ltb x y then y
  else if PrimFloat.ltb y x then x
  else if PrimFloat.get_sign x then y else x.

Definition Math_min (x y : float) : float :=
  if PrimFloat.is_nan x || PrimFloat.is_nan y then nan
  else if PrimFloat.ltb x y then x
  else if PrimFloat.ltb y x then y
  else if PrimFloat.get_sign x then x else y.

(** [xs.filter((_, index) => keep(index))], the index counted from [i]. *)
Fixpoint filter_from {A} (keep : Z -> bool) (i : Z) (xs : list A) : list A :=
  match xs with
  | [] => []
  | x :: r =>
      if keep i then x :: filter_from keep (i + 1) r
      else filter_from keep (i + 1) r
  end.

Definition filter_index {A} (keep : Z -> bool) (xs : list A) : list A :=
  filter_from keep 0 xs.

(** [xs.map((x, index) => f(x, index))], the index counted from [i]. *)
Fixpoint map_from {A B} (f : A -> Z -> B) (i : Z) (xs : list A) : list B :=
  match xs with
  | [] => []
  | x :: r => f x i :: map_from f (i + 1) r
  end.

Definition map_index {A B} (f : A -> Z -> B) (xs : list A) : list B :=
  map_from f 0 xs.

(** [xs.slice(0, n)]. *)
Definition slice0 {A} (n : nat) (xs : list A) : list A := firstn n xs.

(** [v.toFixed(1)] for a number holding a non-negative integer: its decimal
    digits followed by one zero decimal. *)
Definition toFixed1 (v : Z) : string :=
  NilZero.string_of_uint (N.to_uint (Z.to_N v)) ++ ".0".

(** ** Catalogs *)

Module CkdParam.
Record t := mk { name : string; shortForm : string; unit : string }.
End CkdParam.

Definition CKD_PARAMETERS : list CkdParam.t :=
  [ CkdParam.mk "Blood Pressure (BP)" "bp" "mmHg";
    CkdParam.mk "Specific Gravity (SG)" "sg" "";
    CkdParam.mk "Albumin (AL)" "al" "g/dL";
    CkdParam.mk "Blood Glucose Random (BGR)" "bgr" "mg/dL";
    CkdParam.mk "Blood Urea (BU)" "bu" "mg/dL";
    CkdParam.mk "Serum Creatinine (SC)" "sc" "mg/dL";
    CkdParam.mk "Sodium (SOD)" "sod" "mEq/L";
    CkdParam.mk "Potassium (POT)" "pot" "mEq/L";
    CkdParam.mk "Hemoglobin (HEMO)" "hemo" "g/dL";
    CkdParam.mk "Packed Cell Volume (PCV)" "pcv" "%";
    CkdParam.mk "White Blood Cells (WC)" "wc" "/cu.mm";
    CkdParam.mk "Red Blood Cells Count (RC)" "rc" "millions/cu.mm" ].

Definition DIETARY_RECOMMENDATIONS : list string :=
  [ "Limit sodium intake to less than 2,300mg per day";
    "Reduce protein intake to 0.8g per kg of body weight";
    "Choose foods low in phosphorus";
    "Limit potassium-rich foods";
    "Increase intake of anti-inflammatory foods";
    "Stay hydrated with appropriate fluid intake";
    "Avoid processed and packaged foods";
    "Include omega-3 rich foods in diet";
    "Choose whole grains over refined grains";
    "Monitor calcium intake carefully" ].

Definition LIFESTYLE_RECOMMENDATIONS : list string :=
  [ "Maintain regular physical activity with doctor's approval";
    "Get adequate sleep (7-8 hours per night)";
    "Monitor blood pressure regularly";
    "Avoid smoking and limit alcohol consumption";
    "Practice stress management techniques";
    "Keep a food and symptom diary";
    "Attend all scheduled medical appointments";
    "Join a kidney disease support group";
    "Learn about kidney-friendly cooking methods";
    "Take prescribed medications consistently" ].

Module Algorithm.
(** The [description], [icon] and [color] of a roster entry only feed the
    markup and are left out. *)
Record t := mk { name : string; duration : Z; baseAccuracy : float }.
End Algorithm.

Definition ANALYSIS_ALGORITHMS : list Algorithm.t :=
  [ Algorithm.mk "Deep Neural Network Analysis" 8000 0.97;
    Algorithm.mk "Random Forest Classification" 5000 0.93;
    Algorithm.mk "Support Vector Machine" 6000 0.91;
    Algorithm.mk "Ensemble Learning Model" 7000 0.95;
    Algorithm.mk "Feature Extraction Pipeline" 4000 0.89 ].

(** ** The accuracy hash *)

(** [fileName.split('').reduce((acc, char) => acc + char.charCodeAt(0), 0)]. *)
Definition charCodeSum (fileName : js_string) : Z :=
  fold_left (fun acc char => acc + Z.of_N char) fileName 0.

Definition getAlgorithmAccuracy (fileName : js_string) (baseAccuracy : float) : float :=
  let hash := charCodeSum fileName in
  let variation := (number (Z.rem hash 100) / 100 * 0.1 - 0.05)%float in
  Math_min (Math_max (baseAccuracy + variation)%float 0.85%float) 0.99%float.

(** ** The result generator *)

Inductive Status := high | low | normal.

Module ParamReading.
Record t := mk
  { name : string; value : string; status : Status; description : string }.
End ParamReading.

Definition generateParameters (hash : Z) : list ParamReading.t :=
  map_index
    (fun param index =>
       let value := toFixed1 (Z.rem (hash * (index + 1)) 100) in
       let len := Z.of_nat (String.length (CkdParam.name param)) in
       let status :=
         if Z.rem (hash + len) 3 =? 0 then high
         else if Z.rem (hash + len) 3 =? 1 then low
         else normal in
       let description :=
         match status with
         | high => "Elevated " ++ CkdParam.name param
                   ++ " levels indicate potential kidney dysfunction"
         | low => "Low " ++ CkdParam.name param
                  ++ " levels suggest possible metabolic issues"
         | normal => CkdParam.name param ++ " levels are within normal range"
         end in
       ParamReading.mk (CkdParam.name param) (value ++ CkdParam.unit param)
                    status description)
    (filter_index (fun index => Z.rem (hash + index) 3 =? 0) CKD_PARAMETERS).

Definition issues : list string :=
  [ "Irregular cell structure detected";
    "Abnormal tissue density observed";
    "Unusual membrane formation";
    "Cellular degradation present";
    "Tissue scarring detected" ].

Definition getOtherIssues (hash : Z) : list string :=
  filter_index (fun index => Z.rem (hash + index) 3 =? 0) issues.

Definition highRiskRecommendations : list string :=
  [ "Immediate nephrology consultation required";
    "Begin intensive kidney function monitoring";
    "Schedule follow-up biopsy in 2 weeks";
    "Consider dialysis preparation";
    "Strict dietary restrictions recommended" ].

Definition mediumRiskRecommendations : list string :=
  [ "Schedule follow-up examination in 1 month";
    "Monitor blood pressure daily";
    "Dietary sodium restriction advised";
    "Regular blood work every 2 weeks";
    "Consider preventive medications" ].

Definition lowRiskRecommendations : list string :=
  [ "Routine follow-up in 3 months";
    "Maintain healthy diet and exercise";
    "Monitor blood pressure weekly";
    "Annual kidney function screening";
    "Stay well hydrated" ].

Definition getRecommendations (hash : Z) : list string :=
  let probability := (number (Z.rem hash 100) / 100)%float in
  let recommendations :=
    if PrimFloat.ltb 0.7%float probability then highRiskRecommendations
    else if PrimFloat.ltb 0.3%float probability then mediumRiskRecommendations
    else lowRiskRecommendations in
  slice0 3 (filter_index (fun index => Z.rem (hash + index) 2 =? 0) recommendations).

Module File.
(** What the source reads of a browser [File]: [name], [size] (a byte
    count, so never negative) and the MIME [type]. *)
Record t := mk { name : js_string; size : N; type : string }.
End File.

Module Result.
Record t := mk
  { hasSwelling : bool;
    hasShrinkage : bool;
    hasPores : bool;
    otherIssues : list string;
    ckdProbability : float;
    confidence : float;
    recommendations : list string;
    parameters : option (list ParamReading.t);
    dietaryRecommendations : list string;
    lifestyleRecommendations : list string;
    isImage : bool }.
End Result.

(** [s.startsWith(p)]. *)
Definition startsWith (s p : string) : bool := String.prefix p s.

Definition generateConsistentResult (file : File.t) : Result.t :=
  let fileHash := Z.of_nat (length (File.name file)) + Z.of_N (File.size file) in
  let isImage := startsWith (File.type file) "image/" in
  {| Result.hasSwelling := Z.rem fileHash 2 =? 0;
     Result.hasShrinkage := Z.rem fileHash 3 =? 0;
     Result.hasPores := Z.rem fileHash 4 =? 0;
     Result.otherIssues := getOtherIssues fileHash;
     Result.ckdProbability := (number (Z.rem fileHash 100) / 100)%float;
     Result.confidence := (0.85 + number (Z.rem fileHash 15) / 100)%float;
     Result.recommendations := getRecommendations fileHash;
     Result.parameters :=
       if negb isImage then Some (generateParameters fileHash) else None;
     Result.dietaryRecommendations :=
       slice0 5 (filter_index (fun index => Z.rem (fileHash + index) 3 =? 0)
                              DIETARY_RECOMMENDATIONS);
     Result.lifestyleRecommendations :=
       slice0 5 (filter_index (fun index => Z.rem (fileHash + index) 3 =? 0)
                              LIFESTYLE_RECOMMENDATIONS);
     Result.isImage := isImage |}.

(** The spec's names for the two inputs the result depends on. *)
Definition fingerprint (file : File.t) : Z :=
  Z.of_nat (length (File.name file)) + Z.of_N (File.size file).

Definition mediaIsImage (file : File.t) : bool :=
  startsWith (File.type file) "image/".

(** ** The parameter readings in the spec's words *)

(** The reading built from a catalog entry, for hash [hash] and multiplier
    index [k]: raw value [(hash * (k + 1)) mod 100] with one decimal, status
    from [(hash + length name) mod 3]. *)
Definition reading (hash k : Z) (param : CkdParam.t) : ParamReading.t :=
  let nm := CkdParam.name param in
  let s := (hash + Z.of_nat (String.length nm)) mod 3 in
  let status := if s =? 0 then high else if s =? 1 then low else normal in
  {| ParamReading.name := nm;
     ParamReading.value := toFixed1 ((hash * (k + 1)) mod 100) ++ CkdParam.unit param;
     ParamReading.status := status;
     ParamReading.description :=
       match status with
       | high => "Elevated " ++ nm ++ " levels indicate potential kidney dysfunction"
       | low => "Low " ++ nm ++ " levels suggest possible metabolic issues"
       | normal => nm ++ " levels are within normal range"
       end |}.

(** The parameter list as the spec words it: each catalog entry gets the
    reading of its own catalog index, and the entries at the indices [i] with
    [(hash + i) mod 3 = 0] are kept. *)
Definition parameters_by_catalog_index (hash : Z) : list ParamReading.t :=
  filter_index (fun i => (hash + i) mod 3 =? 0)
               (map_index (fun param i => reading hash i param) CKD_PARAMETERS).

(** ** The recommendations in the spec's words *)

Inductive Tier := HighRisk | MediumRisk | LowRisk.

Definition tier_catalog (t : Tier) : list string :=
  match t with
  | HighRisk => highRiskRecommendations
  | MediumRisk => mediumRiskRecommendations
  | LowRisk => lowRiskRecommendations
  end.

(** The tier of a fingerprint: [p = (f mod 100) / 100], high when [p > 0.7],
    medium when [p > 0.3], low otherwise. *)
Definition risk_tier (f : Z) : Tier :=
  let p := (number (f mod 100) / 100)%float in
  if PrimFloat.ltb 0.7%float p then HighRisk
  else if PrimFloat.ltb 0.3%float p then MediumRisk
  else LowRisk.

(** The source's list with [mod] for [%]: the form the proofs compute with. *)
Definition recommendations_of (f : Z) : list string :=
  firstn 3 (filter_index (fun i => (f + i) mod 2 =? 0) (tier_catalog (risk_tier f))).

(** The spec's filter, written without the source's [filter]: every entry is
    paired with its index in the catalog, the pairs whose index passes [keep]
    survive, in catalog order. *)
Definition survivors {A} (keep : Z -> bool) (catalog : list A) : list A :=
  map snd
    (List.filter (fun entry => keep (Z.of_nat (fst entry)))
                 (combine (seq 0 (length catalog)) catalog)).

(** The recommendations as the spec words them: the catalog of the tier,
    index [i] kept iff [(f + i) mod 2 = 0], truncated to the first three
    survivors. *)
Definition recommendations_by_spec (f : Z) : list string :=
  firstn 3 (survivors (fun i => (f + i) mod 2 =? 0) (tier_catalog (risk_tier f))).

(** ** The target accuracy in the spec's words *)

Definition clamp (x lo hi : float) : float :=
  if PrimFloat.ltb x lo then lo else if PrimFloat.ltb hi x then hi else x.

(** The sum of the character codes of a name, one code unit after the
    other, written without the source's [reduce]. *)
Fixpoint sum_of_character_codes (name : js_string) : Z :=
  match name with
  | [] => 0
  | code :: rest => Z.of_N code + sum_of_character_codes rest
  end.

Definition targetAccuracy (fileName : js_string) (baseAccuracy : float) : float :=
  let variation :=
    (number (sum_of_character_codes fileName mod 100) / 100 * 0.1 - 0.05)%float in
  clamp (baseAccuracy + variation)%float 0.85%float 0.99%float.

(** The source's accuracy, as a function of the residue of the name hash. *)
Definition accuracy_of_residue (r : Z) (baseAccuracy : float) : float :=
  Math_min (Math_max (baseAccuracy + (number r / 100 * 0.1 - 0.05))%float
                     0.85%float) 0.99%float.

(** ** The component: state, timers and effects

    The [App] component is modelled as an event loop.  A task is either a
    call of [analyzeFile] or the callback of the pending timer that is due
    first (timers due at the same instant fire in creation order); time is
    the nominal time of the timers, in milliseconds.  The state updates a
    task requests are applied in order, then the component renders once and
    the effects whose dependencies changed run, in source order.  An updater
    function runs once per update.

    Left out of the event loop: the cells that only feed the markup
    ([showWelcome], [currentQuote], [selectedImage], [showAnalysisPage]) and
    the two effects that drive the first two.  Neither reads or writes a
    cell of the loop; the quote index is modelled on its own further down. *)

(** A state cell that some effect depends on: its value, its value at the
    last render, and whether the two differ.  A setter compares against the
    rendered value, so [changed] says at the next render what React's
    comparison of the dependency arrays says. *)
Record cell (A : Type) := Cell { cur : A; rendered : A; changed : bool }.
Arguments Cell {A} _ _ _.
Arguments cur {A} _.
Arguments rendered {A} _.
Arguments changed {A} _.

Definition cell_set {A} (same : A -> A -> bool) (v : A) (c : cell A) : cell A :=
  Cell v (rendered c) (negb (same v (rendered c))).

Definition cell_render {A} (c : cell A) : cell A := Cell (cur c) (cur c) false.

(** The callbacks the component hands to [setInterval] and [setTimeout],
    each with the values its closure captured. *)
Inductive Callback :=
| ProgressTick (totalDuration : Z)
| StepTick
| AnalysisTimeout
| AlgorithmTick (algorithm : Algorithm.t)
                (incrementAmount accuracyIncrementAmount targetAccuracy : float)
| RosterTimeout
| PublishResult (mockResult : Result.t).

(** A pending timer: [period] is the interval of a [setInterval] timer and
    [None] for a [setTimeout] one. *)
Record Timer := mkTimer
  { timer_id : Z; due : Z; period : option Z; callback : Callback }.

Record AppState := mkApp
  { isAnalyzing : cell bool;
    result : option Result.t;
    analysisStep : Z;
    analysisProgress : float;
    processingImage : cell (option Z);
    currentFileName : cell js_string;
    algorithmProgress : gmap string float;
    algorithmAccuracy : gmap string float;
    completedAlgorithms : list string;
    cleanup : list Z;
    timers : list Timer;
    nextId : Z;
    nextUrl : Z;
    now : Z }.

Definition with_isAnalyzing (v : cell bool) (s : AppState) : AppState :=
  mkApp v (result s) (analysisStep s) (analysisProgress s) (processingImage s) (currentFileName s) (algorithmProgress s) (algorithmAccuracy s) (completedAlgorithms s) (cleanup s) (timers s) (nextId s) (nextUrl s) (now s).

Definition with_result (v : option Result.t) (s : AppState) : AppState :=
  mkApp (isAnalyzing s) v (analysisStep s) (analysisProgress s) (processingImage s) (currentFileName s) (algorithmProgress s) (algorithmAccuracy s) (completedAlgorithms s) (cleanup s) (timers s) (nextId s) (nextUrl s) (now s).

Definition with_analysisStep (v : Z) (s : AppState) : AppState :=
  mkApp (isAnalyzing s) (result s) v (analysisProgress s) (processingImage s) (currentFileName s) (algorithmProgress s) (algorithmAccuracy s) (completedAlgorithms s) (cleanup s) (timers s) (nextId s) (nextUrl s) (now s).

Definition with_analysisProgress (v : float) (s : AppState) : AppState :=
  mkApp (isAnalyzing s) (result s) (analysisStep s) v (processingImage s) (currentFileName s) (algorithmProgress s) (algorithmAccuracy s) (completedAlgorithms s) (cleanup s) (timers s) (nextId s) (nextUrl s) (now s).

Definition with_processingImage (v : cell (option Z)) (s : AppState) : AppState :=
  mkApp (isAnalyzing s) (result s) (analysisStep s) (analysisProgress s) v (currentFileName s) (algorithmProgress s) (algorithmAccuracy s) (completedAlgorithms s) (cleanup s) (timers s) (nextId s) (nextUrl s) (now s).

Definition with_currentFileName (v : cell js_string) (s : AppState) : AppState :=
  mkApp (isAnalyzing s) (result s) (analysisStep s) (analysisProgress s) (processingImage s) v (algorithmProgress s) (algorithmAccuracy s) (completedAlgorithms s) (cleanup s) (timers s) (nextId s) (nextUrl s) (now s).

Definition with_algorithmProgress (v : gmap string float) (s : AppState) : AppState :=
  mkApp (isAnalyzing s) (result s) (analysisStep s) (analysisProgress s) (processingImage s) (currentFileName s) v (algorithmAccuracy s) (completedAlgorithms s) (cleanup s) (timers s) (nextId s) (nextUrl s) (now s).

Definition with_algorithmAccuracy (v : gmap string float) (s : AppState) : AppState :=
  mkApp (isAnalyzing s) (result s) (analysisStep s) (analysisProgress s) (processingImage s) (currentFileName s) (algorithmProgress s) v (completedAlgorithms s) (cleanup s) (timers s) (nextId s) (nextUrl s) (now s).

Definition with_completedAlgorithms (v : list string) (s : AppState) : AppState :=
  mkApp (isAnalyzing s) (result s) (analysisStep s) (analysisProgress s) (processingImage s) (currentFileName s) (algorithmProgress s) (algorithmAccuracy s) v (cleanup s) (timers s) (nextId s) (nextUrl s) (now s).

Definition with_cleanup (v : list Z) (s : AppState) : AppState :=
  mkApp (isAnalyzing s) (result s) (analysisStep s) (analysisProgress s) (processingImage s) (currentFileName s) (algorithmProgress s) (algorithmAccuracy s) (completedAlgorithms s) v (timers s) (nextId s) (nextUrl s) (now s).

Definition with_timers (v : list Timer) (s : AppState) : AppState :=
  mkApp (isAnalyzing s) (result s) (analysisStep s) (analysisProgress s) (processingImage s) (currentFileName s) (algorithmProgress s) (algorithmAccuracy s) (completedAlgorithms s) (cleanup s) v (nextId s) (nextUrl s) (now s).

Definition with_nextId (v : Z) (s : AppState) : AppState :=
  mkApp (isAnalyzing s) (result s) (analysisStep s) (analysisProgress s) (processingImage s) (currentFileName s) (algorithmProgress s) (algorithmAccuracy s) (completedAlgorithms s) (cleanup s) (timers s) v (nextUrl s) (now s).

Definition with_nextUrl (v : Z) (s : AppState) : AppState :=
  mkApp (isAnalyzing s) (result s) (analysisStep s) (analysisProgress s) (processingImage s) (currentFileName s) (algorithmProgress s) (algorithmAccuracy s) (completedAlgorithms s) (cleanup s) (timers s) (nextId s) v (now s).

Definition with_now (v : Z) (s : AppState) : AppState :=
  mkApp (isAnalyzing s) (result s) (analysisStep s) (analysisProgress s) (processingImage s) (currentFileName s) (algorithmProgress s) (algorithmAccuracy s) (completedAlgorithms s) (cleanup s) (timers s) (nextId s) (nextUrl s) v.

(** *** Timers *)

Definition setInterval (cb : Callback) (delay : Z) (s : AppState) : Z * AppState :=
  let id := nextId s in
  (id, with_nextId (id + 1)
         (with_timers (timers s ++ [mkTimer id (now s + delay) (Some delay) cb]) s)).

Definition setTimeout (cb : Callback) (delay : Z) (s : AppState) : Z * AppState :=
  let id := nextId s in
  (id, with_nextId (id + 1)
         (with_timers (timers s ++ [mkTimer id (now s + delay) None cb]) s)).

(** [clearInterval] and [clearTimeout] share one table of ids. *)
Definition clearTimer (id : Z) (s : AppState) : AppState :=
  with_timers (List.filter (fun t => negb (timer_id t =? id)) (timers s)) s.

(** The timer to fire next: the earliest due, the oldest among equals. *)
Definition earlier (a b : Timer) : bool :=
  (due a <? due b) || ((due a =? due b) && (timer_id a <? timer_id b)).

Fixpoint next_timer (ts : list Timer) : option Timer :=
  match ts with
  | [] => None
  | t :: r =>
      match next_timer r with
      | Some u => Some (if earlier u t then u else t)
      | None => Some t
      end
  end.

(** [Math.max(...xs)] on integers (the roster is not empty). *)
Definition Math_max_of (xs : list Z) : Z :=
  match xs with
  | [] => 0
  | x :: r => fold_left Z.max r x
  end.

(** *** State setters of the cells that effects depend on *)

Definition same_name (a b : js_string) : bool :=
  bool_decide (a = b).

Definition same_url (a b : option Z) : bool := bool_decide (a = b).

Definition setIsAnalyzing (v : bool) (s : AppState) : AppState :=
  with_isAnalyzing (cell_set Bool.eqb v (isAnalyzing s)) s.

Definition setProcessingImage (v : option Z) (s : AppState) : AppState :=
  with_processingImage (cell_set same_url v (processingImage s)) s.

Definition setCurrentFileName (v : js_string) (s : AppState) : AppState :=
  with_currentFileName (cell_set same_name v (currentFileName s)) s.

(** [m[key] || dflt]: a missing entry, zero and NaN all give the default. *)
Definition or_default (v : option float) (dflt : float) : float :=
  match v with
  | Some x => if PrimFloat.is_zero x || PrimFloat.is_nan x then dflt else x
  | None => dflt
  end.

(** [ANALYSIS_ALGORITHMS.reduce((acc, alg) => ({ ...acc, [alg.name]: v }), {})]. *)
Definition all_algorithms (v : float) : gmap string float :=
  fold_left (fun acc alg => <[Algorithm.name alg := v]> acc) ANALYSIS_ALGORITHMS ∅.

(** *** Timer callbacks *)

(** The body of a callback; [self] is the id of the timer that runs it. *)
Definition run_callback (self : Z) (cb : Callback) (s : AppState) : AppState :=
  match cb with
  | ProgressTick totalDuration =>
      let prev := analysisProgress s in
      if PrimFloat.leb 100%float prev
      then with_analysisProgress 100%float (clearTimer self s)
      else with_analysisProgress
             (prev + 100 / (number totalDuration / 50))%float s
  | StepTick => with_analysisStep (Z.rem (analysisStep s + 1) 4) s
  | AnalysisTimeout | RosterTimeout =>
      setProcessingImage None (setIsAnalyzing false s)
  | AlgorithmTick algorithm incrementAmount accuracyIncrementAmount targetAccuracy =>
      let name := Algorithm.name algorithm in
      let startingAccuracy := 0.76%float in
      let s :=
        let prev := algorithmProgress s in
        let newProgress := (or_default (prev !! name) 0 + incrementAmount)%float in
        if PrimFloat.leb 100%float newProgress
        then
          let s := clearTimer self s in
          let s := with_completedAlgorithms (completedAlgorithms s ++ [name]) s in
          with_algorithmProgress (<[name := 100%float]> prev) s
        else with_algorithmProgress (<[name := newProgress]> prev) s in
      let prev := algorithmAccuracy s in
      let currentAccuracy := or_default (prev !! name) startingAccuracy in
      let newAccuracy :=
        Math_min (currentAccuracy + accuracyIncrementAmount)%float targetAccuracy in
      with_algorithmAccuracy (<[name := newAccuracy]> prev) s
  | PublishResult mockResult => with_result (Some mockResult) s
  end.

(** *** Effects *)

(** The effect with dependencies [isAnalyzing, processingImage]; it returns
    a cleanup that clears its three timers, which runs before the next run. *)
Definition progress_effect (s : AppState) : AppState :=
  if changed (isAnalyzing s) || changed (processingImage s) then
    let s := with_cleanup [] (fold_left (fun s id => clearTimer id s) (cleanup s) s) in
    if cur (isAnalyzing s) then
      let totalDuration :=
        match cur (processingImage s) with
        | Some _ => 10000
        | None => 15000
        end in
      let '(progressInterval, s) := setInterval (ProgressTick totalDuration) 50 s in
      let '(stepInterval, s) := setInterval StepTick 2000 s in
      let '(analysisTimer, s) := setTimeout AnalysisTimeout totalDuration s in
      with_cleanup [progressInterval; stepInterval; analysisTimer] s
    else
      with_analysisStep 0 (with_analysisProgress 0%float s)
  else s.

(** The body of the [forEach] over the roster, from the target accuracy on:
    the increments and the interval of one algorithm. *)
Definition start_algorithm (targetAccuracy : float) (algorithm : Algorithm.t)
    (s : AppState) : AppState :=
  let updateInterval := 50 in
  let incrementAmount :=
    (number (100 * updateInterval) / number (Algorithm.duration algorithm))%float in
  let startingAccuracy := 0.76%float in
  let accuracyRange := (targetAccuracy - startingAccuracy)%float in
  let accuracyIncrementAmount :=
    (accuracyRange * number updateInterval
     / number (Algorithm.duration algorithm))%float in
  snd (setInterval
         (AlgorithmTick algorithm incrementAmount accuracyIncrementAmount
                        targetAccuracy)
         updateInterval s).

(** The effect with dependencies [isAnalyzing, currentFileName]; it returns
    no cleanup. *)
Definition algorithm_effect (s : AppState) : AppState :=
  if changed (isAnalyzing s) || changed (currentFileName s) then
    if cur (isAnalyzing s) && negb (same_name (cur (currentFileName s)) []) then
      let currentFileName := cur (currentFileName s) in
      let s :=
        fold_left
          (fun s algorithm =>
             start_algorithm
               (getAlgorithmAccuracy currentFileName (Algorithm.baseAccuracy algorithm))
               algorithm s)
          ANALYSIS_ALGORITHMS s in
      let maxDuration := Math_max_of (map Algorithm.duration ANALYSIS_ALGORITHMS) in
      snd (setTimeout RosterTimeout (maxDuration + 1000) s)
    else
      with_completedAlgorithms []
        (with_algorithmAccuracy (all_algorithms 0.76%float)
           (with_algorithmProgress (all_algorithms 0%float) s))
  else s.

(** One render: the effects whose dependencies changed run, then the
    rendered values of the dependencies are the current ones. *)
Definition render (s : AppState) : AppState :=
  let s := algorithm_effect (progress_effect s) in
  with_isAnalyzing (cell_render (isAnalyzing s))
    (with_processingImage (cell_render (processingImage s))
       (with_currentFileName (cell_render (currentFileName s)) s)).

(** The component after mounting: the initial values of the [useState]
    calls, and every effect run once. *)
Definition initial : AppState :=
  {| isAnalyzing := Cell false false true;
     result := None;
     analysisStep := 0;
     analysisProgress := 0%float;
     processingImage := Cell None None true;
     currentFileName := Cell [] [] true;
     algorithmProgress := all_algorithms 0%float;
     algorithmAccuracy := all_algorithms 0%float;
     completedAlgorithms := [];
     cleanup := [];
     timers := [];
     nextId := 0;
     nextUrl := 0;
     now := 0 |}.

Definition mounted : AppState := render initial.

(** *** Tasks *)

(** [analyzeFile(file)]; [URL.createObjectURL] returns a fresh URL, modelled
    by its serial number. *)
Definition analyzeFile (file : File.t) (s : AppState) : AppState :=
  let s := setIsAnalyzing true s in
  let s := with_result None s in
  let s := with_completedAlgorithms [] s in
  let s := setCurrentFileName (File.name file) s in
  let s :=
    if startsWith (File.type file) "image/" then
      let imageUrl := nextUrl s in
      setProcessingImage (Some imageUrl) (with_nextUrl (imageUrl + 1) s)
    else setProcessingImage None s in
  let mockResult := generateConsistentResult file in
  let maxDuration := Math_max_of (map Algorithm.duration ANALYSIS_ALGORITHMS) in
  let s := snd (setTimeout (PublishResult mockResult) (maxDuration + 1000) s) in
  render s.

(** Fire one timer: the clock moves to its due time, an interval is re-armed
    and a timeout dropped, the callback runs, and the component renders. *)
Definition fire (t : Timer) (s : AppState) : AppState :=
  let rest := List.filter (fun u => negb (timer_id u =? timer_id t)) (timers s) in
  let pending :=
    match period t with
    | Some p =>
        (rest ++ [mkTimer (timer_id t) (due t + p) (Some p) (callback t)])%list
    | None => rest
    end in
  let s := with_now (due t) (with_timers pending s) in
  render (run_callback (timer_id t) (callback t) s).

(** The timer that fires next when the clock may advance to [horizon]. *)
Definition next_due (horizon : Z) (s : AppState) : option Timer :=
  match next_timer (timers s) with
  | Some t => if due t <=? horizon then Some t else None
  | None => None
  end.

(** Let time pass until [horizon]: the list of the timers fired, each with
    the state it left, and the state at [horizon].  [None] when [fuel] tasks
    do not reach the horizon. *)
Fixpoint elapse (fuel : nat) (horizon : Z) (s : AppState)
  : option (list (Timer * AppState) * AppState) :=
  match next_due horizon s with
  | None => Some ([], with_now (Z.max (now s) horizon) s)
  | Some t =>
      match fuel with
      | O => None
      | S fuel' =>
          let s' := fire t s in
          match elapse fuel' horizon s' with
          | Some (tr, final) => Some ((t, s') :: tr, final)
          | None => None
          end
      end
  end.

(** ** Reading a run *)

(** What the markup shows of an algorithm: [algorithmProgress[name] || 0]
    and [algorithmAccuracy[name]]. *)
Definition progress_of (s : AppState) (name : string) : float :=
  or_default (algorithmProgress s !! name) 0%float.

Definition accuracy_of (s : AppState) (name : string) : float :=
  match algorithmAccuracy s !! name with
  | Some v => v
  | None => nan
  end.

(** The result pane is shown when [result && !isAnalyzing]. *)
Definition revealed (s : AppState) : bool :=
  match result s with
  | Some _ => negb (cur (isAnalyzing s))
  | None => false
  end.

(** The steps of a run: the state before a task, the timer fired, and the
    state after. *)
Fixpoint steps (s : AppState) (tr : list (Timer * AppState))
  : list (AppState * Timer * AppState) :=
  match tr with
  | [] => []
  | (t, s') :: r => (s, t, s') :: steps s' r
  end.

(** The timer is the interval of algorithm [a]. *)
Definition ticks (a : Algorithm.t) (t : Timer) : bool :=
  match callback t with
  | AlgorithmTick a' _ _ _ => String.eqb (Algorithm.name a') (Algorithm.name a)
  | _ => false
  end.

(** The two increments of algorithm [a], as the claim words them. *)
Definition progressIncrement (a : Algorithm.t) : float :=
  (number (100 * 50) / number (Algorithm.duration a))%float.

Definition accuracyIncrement (target : float) (a : Algorithm.t) : float :=
  ((target - 0.76) * number 50 / number (Algorithm.duration a))%float.

(** One step of a session submitted at time [start], seen from the progress
    of algorithm [a]: a tick of [a] falls on a multiple of 50 ms after
    [start] and adds the increment, clamped at 100; any other task leaves the
    progress alone; the progress does not decrease. *)
Definition progress_tick_ok (start : Z) (a : Algorithm.t)
    (st : AppState * Timer * AppState) : bool :=
  let '(s, t, s') := st in
  let nm := Algorithm.name a in
  let p := progress_of s nm in
  let p' := progress_of s' nm in
  PrimFloat.leb p p'
  && (if ticks a t then
        (Z.rem (due t - start) 50 =? 0)
        && PrimFloat.eqb p' (Math_min (p + progressIncrement a)%float 100%float)
      else PrimFloat.eqb p' p).

(** One step, seen from the accuracy of algorithm [a] with target accuracy
    [target]: a tick of [a] adds the increment, clamped at [target]; any
    other task leaves the accuracy alone; the accuracy does not decrease. *)
Definition accuracy_tick_ok (target : float) (a : Algorithm.t)
    (st : AppState * Timer * AppState) : bool :=
  let '(s, t, s') := st in
  let nm := Algorithm.name a in
  let q := accuracy_of s nm in
  let q' := accuracy_of s' nm in
  PrimFloat.leb q q'
  && (if ticks a t then
        PrimFloat.eqb q' (Math_min (q + accuracyIncrement target a)%float target)
      else PrimFloat.eqb q' q).

(** The times at which the interval of [a] fired. *)
Definition tick_times (a : Algorithm.t) (tr : list (Timer * AppState)) : list Z :=
  map (fun x => due (fst x)) (List.filter (fun x => ticks a (fst x)) tr).

(** The multiples of 50 from 50 to [50 * n]. *)
Definition every_50ms (n : nat) : list Z :=
  map (fun i => 50 * Z.of_nat i) (seq 1 n).

(** The number of additions of [inc] that take a progress [p] to 100 or
    above, within [fuel] additions. *)
Fixpoint ticks_until_100 (fuel : nat) (inc p : float) : nat :=
  match fuel with
  | O => O
  | S fuel' =>
      let p' := (p + inc)%float in
      if PrimFloat.leb 100%float p' then 1%nat
      else S (ticks_until_100 fuel' inc p')
  end.

Definition ticks_needed (a : Algorithm.t) : nat :=
  ticks_until_100 400 (progressIncrement a) 0%float.

(** The interval of [a] is no longer pending. *)
Definition stopped (a : Algorithm.t) (s : AppState) : bool :=
  forallb (fun t => negb (ticks a t)) (timers s).

(** The timer is one of the two that end the analysis. *)
Definition ends_analysis (t : Timer) : bool :=
  match callback t with
  | AnalysisTimeout | RosterTimeout => true
  | _ => false
  end.

(** One step, seen from the completion list: a task appends at most one
    name, namely the name of the algorithm whose tick takes its progress from
    below 100 to 100, and an algorithm in the list is not ticked. *)
Definition completion_ok (st : AppState * Timer * AppState) : bool :=
  let '(s, t, s') := st in
  let done := completedAlgorithms s in
  let done' := completedAlgorithms s' in
  match callback t with
  | AlgorithmTick a _ _ _ =>
      let nm := Algorithm.name a in
      negb (bool_decide (nm ∈ done))
      && PrimFloat.ltb (progress_of s nm) 100%float
      && (if PrimFloat.eqb (progress_of s' nm) 100%float
          then bool_decide (done' = (done ++ [nm])%list)
          else bool_decide (done' = done))
  | _ => bool_decide (done' = done)
  end.

(** One step, seen from the completed algorithms: each stays completed, is
    not ticked, and keeps its progress of 100. *)
Definition pinned_ok (st : AppState * Timer * AppState) : bool :=
  let '(s, t, s') := st in
  forallb
    (fun a =>
       let nm := Algorithm.name a in
       if bool_decide (nm ∈ completedAlgorithms s) then
         bool_decide (nm ∈ completedAlgorithms s')
         && negb (ticks a t)
         && PrimFloat.eqb (progress_of s' nm) 100%float
       else true)
    ANALYSIS_ALGORITHMS.

(** In a state: the completion list has no duplicate, and it holds exactly
    the algorithms whose progress is 100. *)
Definition completed_ok (s : AppState) : bool :=
  bool_decide (NoDup (completedAlgorithms s))
  && forallb
       (fun a =>
          let nm := Algorithm.name a in
          Bool.eqb (bool_decide (nm ∈ completedAlgorithms s))
                   (PrimFloat.eqb (progress_of s nm) 100%float))
       ANALYSIS_ALGORITHMS.

(** One step of a session submitted at time [start], seen from the reveal:
    the roster timer fires at the longest duration plus one second after
    [start], while analysing, and reveals the result; the overall timer does
    not fire; any other task leaves the analysis running and nothing
    revealed, and no result is stored before 9000 ms have passed. *)
Definition reveal_ok (start : Z) (st : AppState * Timer * AppState) : bool :=
  let '(s, t, s') := st in
  match callback t with
  | RosterTimeout =>
      (due t
       =? start + (Math_max_of (map Algorithm.duration ANALYSIS_ALGORITHMS) + 1000))
      && cur (isAnalyzing s) && negb (revealed s) && revealed s'
  | AnalysisTimeout => false
  | _ =>
      cur (isAnalyzing s') && negb (revealed s')
      && match result s' with
         | Some _ => start + 9000 <=? due t
         | None => true
         end
  end.

(** ** The first session after mounting *)

(** [analyzeFile] up to its render, as a function of what it reads of the file. *)
Definition submitted (nm : js_string) (img : bool) (res : Result.t)
    (s : AppState) : AppState :=
  let s := setIsAnalyzing true s in
  let s := with_result None s in
  let s := with_completedAlgorithms [] s in
  let s := setCurrentFileName nm s in
  let s :=
    if img then
      let imageUrl := nextUrl s in
      setProcessingImage (Some imageUrl) (with_nextUrl (imageUrl + 1) s)
    else setProcessingImage None s in
  let maxDuration := Math_max_of (map Algorithm.duration ANALYSIS_ALGORITHMS) in
  snd (setTimeout (PublishResult res) (maxDuration + 1000) s).

(** The end of [render]. *)
Definition rendered_cells (s : AppState) : AppState :=
  with_isAnalyzing (cell_render (isAnalyzing s))
    (with_processingImage (cell_render (processingImage s))
       (with_currentFileName (cell_render (currentFileName s)) s)).

(** The roster started with the target accuracies [target]. *)
Definition roster_started (target : float -> float) (s : AppState) : AppState :=
  let s :=
    fold_left
      (fun s algorithm =>
         start_algorithm (target (Algorithm.baseAccuracy algorithm)) algorithm s)
      ANALYSIS_ALGORITHMS s in
  let maxDuration := Math_max_of (map Algorithm.duration ANALYSIS_ALGORITHMS) in
  snd (setTimeout RosterTimeout (maxDuration + 1000) s).

(** The state [analyzeFile] leaves when called on the mounted component with
    a file of non-empty name [nm]. *)
Definition session_of (nm : js_string) (img : bool) (res : Result.t)
    (target : float -> float) : AppState :=
  rendered_cells
    (roster_started target (progress_effect (submitted nm img res mounted))).

(** No effect has a changed dependency: the state is as a render left it. *)
Definition quiet (s : AppState) : bool :=
  negb (changed (isAnalyzing s))
  && negb (changed (processingImage s))
  && negb (changed (currentFileName s)).

(** The callback [start_algorithm] registers for [a]. *)
Definition tick_callback (target : float -> float) (a : Algorithm.t) : Callback :=
  let tg := target (Algorithm.baseAccuracy a) in
  AlgorithmTick a (progressIncrement a) (accuracyIncrement tg a) tg.

(** The accuracies of an algorithm from the accuracy [q] on, over [n] more
    ticks: every value is a proper non-zero number (so [m[name] || 0.76]
    reads it back), no tick lowers it, and the last one is within 1e-6 of the
    target. *)
Fixpoint accuracy_run_ok (inc target : float) (n : nat) (q : float) : bool :=
  negb (PrimFloat.is_zero q || PrimFloat.is_nan q)
  && PrimFloat.eqb q q
  && PrimFloat.leb q q
  && match n with
     | O => PrimFloat.leb (abs (q - target))%float 1e-6%float
     | S n' =>
         let q' := Math_min (q + inc)%float target in
         PrimFloat.leb q q' && accuracy_run_ok inc target n' q'
     end.



(** ** The quotes banner *)

Module Quote.
Record t := mk { text : string; author : string }.
End Quote.

Definition INSPIRATIONAL_QUOTES : list Quote.t :=
  [ Quote.mk "Your health is an investment, not an expense." "Unknown";
    Quote.mk "The greatest wealth is health." "Virgil";
    Quote.mk "Take care of your body. It's the only place you have to live."
             "Jim Rohn";
    Quote.mk "Health is not valued until sickness comes." "Thomas Fuller";
    Quote.mk "Prevention is better than cure." "Desiderius Erasmus" ].

(** The updater of the 5 s interval:
    [prev => (prev + 1) % INSPIRATIONAL_QUOTES.length]. *)
Definition nextQuote (prev : Z) : Z :=
  Z.rem (prev + 1) (Z.of_nat (length INSPIRATIONAL_QUOTES)).

(** [currentQuote] after [n] firings of the interval, from its initial 0. *)
Definition currentQuote_after (n : nat) : Z := Nat.iter n nextQuote 0.

(** [INSPIRATIONAL_QUOTES[currentQuote]], as the markup reads it. *)
Definition quote_shown (currentQuote : Z) : option Quote.t :=
  if currentQuote <? 0 then None
  else INSPIRATIONAL_QUOTES !! Z.to_nat currentQuote.

(** ** Predicates and scenarios of the statements *)

(** Every residue below [n] is met by a finite enumeration, so a boolean
    property of a residue is settled by evaluation. *)
Definition residues (n : nat) : list Z := map Z.of_nat (seq 0 n).

Definition probability_in_range (r : Z) : bool :=
  let p := (number r / 100)%float in
  PrimFloat.leb 0%float p && PrimFloat.leb p 0.99%float.

Definition confidence_in_range (r : Z) : bool :=
  let c := (0.85 + number r / 100)%float in
  PrimFloat.leb 0.85%float c && PrimFloat.ltb c 1%float.

(** The float comparisons of the tier choice, read on the integer residue. *)
Definition tier_by_residue (r : Z) : bool :=
  let p := (number r / 100)%float in
  Bool.eqb (PrimFloat.ltb 0.7%float p) (70 <? r)
  && Bool.eqb (PrimFloat.ltb 0.3%float p) (30 <? r).

(** For one residue of the name hash: on every roster entry the source's
    value is the clamp of the spec and lies in [0.85, 0.99]. *)
Definition target_ok (r : Z) : Prop :=
  Forall
    (fun alg =>
       let base := Algorithm.baseAccuracy alg in
       let t := accuracy_of_residue r base in
       t = clamp (base + (number r / 100 * 0.1 - 0.05))%float 0.85%float 0.99%float
       /\ PrimFloat.leb 0.85%float t = true
       /\ PrimFloat.leb t 0.99%float = true)
    ANALYSIS_ALGORITHMS.

(** A boolean property of a run that reached its horizon. *)
Definition holds_of
    (P : AppState -> list (Timer * AppState) -> AppState -> bool)
    (s0 : AppState) (run : option (list (Timer * AppState) * AppState)) : bool :=
  match run with
  | Some (tr, final) => P s0 tr final
  | None => false
  end.

(** A boolean property [P] of the run of the first session until [horizon],
    for a file of either category. *)
Definition session_check
    (P : AppState -> list (Timer * AppState) -> AppState -> bool)
    (horizon : Z) (nm : js_string) (res : Result.t) (target : float -> float)
    (img : bool) : bool :=
  holds_of P (session_of nm img res target)
    (elapse 2000 horizon (session_of nm img res target)).

(** The last state of a run. *)
Fixpoint last_state (s : AppState) (tr : list (Timer * AppState)) : AppState :=
  match tr with
  | [] => s
  | (_, s') :: r => last_state s' r
  end.

(** The callbacks pending in a session are the ones the effects registered:
    an algorithm tick is the tick of a roster entry with the increments and
    the target of that entry. *)
Definition registered (target : float -> float) (cb : Callback) : Prop :=
  match cb with
  | AlgorithmTick a _ _ _ =>
      In a ANALYSIS_ALGORITHMS /\ cb = tick_callback target a
  | _ => True
  end.

Definition accuracy_runs_ok (r : Z) : bool :=
  forallb
    (fun a =>
       let tg := accuracy_of_residue r (Algorithm.baseAccuracy a) in
       accuracy_run_ok (accuracyIncrement tg a) tg (ticks_needed a) 0.76%float)
    ANALYSIS_ALGORITHMS.

(** The progress side of the run, which does not depend on the file; times
    count from the submission, which is the time of the first state. *)
Definition progress_run_ok (s0 : AppState) (tr : list (Timer * AppState))
    (final : AppState) : bool :=
  forallb (fun x => negb (ends_analysis (fst x))) tr
  && forallb
       (fun a =>
          let nm := Algorithm.name a in
          PrimFloat.eqb (progress_of s0 nm) 0%float
          && forallb (progress_tick_ok (now s0) a) (steps s0 tr)
          && bool_decide (tick_times a tr
                          = map (Z.add (now s0)) (every_50ms (ticks_needed a)))
          && (50 * Z.of_nat (ticks_needed a) <? 9000)
          && stopped a final
          && PrimFloat.eqb (progress_of final nm) 100%float)
       ANALYSIS_ALGORITHMS.

Definition completion_run_ok (s0 : AppState) (tr : list (Timer * AppState))
    (final : AppState) : bool :=
  forallb (fun x => negb (ends_analysis (fst x))) tr
  && bool_decide (completedAlgorithms s0 = [])
  && forallb (fun st => completion_ok st && pinned_ok st && completed_ok (snd st))
             (steps s0 tr)
  && bool_decide (completedAlgorithms final
                  ≡ₚ map Algorithm.name ANALYSIS_ALGORITHMS).

Definition is_roster_timeout (t : Timer) : bool :=
  match callback t with
  | RosterTimeout => true
  | _ => false
  end.

Definition reveal_run_ok (s0 : AppState) (tr : list (Timer * AppState))
    (final : AppState) : bool :=
  cur (isAnalyzing s0) && negb (revealed s0)
  && forallb (reveal_ok (now s0)) (steps s0 tr)
  && match last tr with
     | Some (t, _) => is_roster_timeout t
     | None => false
     end
  && negb (cur (isAnalyzing final))
  && bool_decide (timers final = [])
  && (now final =? now s0 + 9000).

Definition first_file : File.t :=
  File.mk (utf16 "report.pdf") 1234 "application/pdf".

Definition second_file : File.t :=
  File.mk (utf16 "labs.csv") 777 "text/csv".

(** The state a run reaches at its horizon. *)
Definition state_at (fuel : nat) (horizon : Z) (s : AppState) : option AppState :=
  option_map snd (elapse fuel horizon s).

(** [first_file] is submitted on the mounted component, and [second_file]
    1000 ms later. *)
Definition resubmitted : option AppState :=
  option_map (analyzeFile second_file)
             (state_at 2000 1000 (analyzeFile first_file mounted)).

Definition is_algorithm_tick (t : Timer) : bool :=
  match callback t with
  | AlgorithmTick _ _ _ _ => true
  | _ => false
  end.

Definition progresses (s : AppState) : list float :=
  map (fun a => progress_of s (Algorithm.name a)) ANALYSIS_ALGORITHMS.

(** The targets of the roster for one residue, in roster order, never
    increase from a higher base accuracy to a lower one. *)
Definition ranking_kept (r : Z) : bool :=
  let t := fun b => accuracy_of_residue r b in
  PrimFloat.leb (t 0.95%float) (t 0.97%float)
  && PrimFloat.leb (t 0.93%float) (t 0.95%float)
  && PrimFloat.leb (t 0.91%float) (t 0.93%float)
  && PrimFloat.leb (t 0.89%float) (t 0.91%float).

Definition completion_times (tr : list (Timer * AppState)) : list (option Z) :=
  map (fun a => last (tick_times a tr)) ANALYSIS_ALGORITHMS.

Definition finish_ok (s0 : AppState) (tr : list (Timer * AppState))
    (final : AppState) : bool :=
  bool_decide (completedAlgorithms final
               = ["Feature Extraction Pipeline"; "Random Forest Classification";
                  "Support Vector Machine"; "Ensemble Learning Model";
                  "Deep Neural Network Analysis"])
  && bool_decide (completion_times tr
                  = [Some 8000; Some 5000; Some 6050; Some 7050; Some 4000]).

(** One step, seen from the overall progress bar and the caption index:
    after the task that ends the analysis both are back at 0; after any
    other task the bar is at most 90.5 and the caption index is the number of
    whole 2 s periods elapsed, modulo 4, once the caption timer of that
    instant has run. *)
Definition banner_ok (st : AppState * Timer * AppState) : bool :=
  let '(s, t, s') := st in
  if ends_analysis t then
    PrimFloat.eqb (analysisProgress s') 0%float && (analysisStep s' =? 0)
  else
    PrimFloat.leb (analysisProgress s') 90.5%float
    && (0 <=? analysisStep s') && (analysisStep s' <? 4)
    && match callback t with
       | StepTick => analysisStep s' =? (due t / 2000) mod 4
       | _ => analysisStep s' =? analysisStep s
       end.

Definition banner_run_ok (s0 : AppState) (tr : list (Timer * AppState))
    (final : AppState) : bool :=
  PrimFloat.eqb (analysisProgress s0) 0%float && (analysisStep s0 =? 0)
  && forallb banner_ok (steps s0 tr)
  && PrimFloat.eqb (analysisProgress final) 0%float && (analysisStep final =? 0).

Definition idle_ok (s0 : AppState) (tr : list (Timer * AppState))
    (final : AppState) : bool :=
  bool_decide (timers final = [])
  && bool_decide (cleanup final = [])
  && bool_decide (completedAlgorithms final = [])
  && bool_decide (cur (processingImage final) = None)
  && negb (cur (isAnalyzing final))
  && quiet final
  && (now final =? 9000)
  && forallb
       (fun a =>
          PrimFloat.eqb (progress_of final (Algorithm.name a)) 0%float
          && PrimFloat.eqb (accuracy_of final (Algorithm.name a)) 0.76%float)
       ANALYSIS_ALGORITHMS.

(** The state [analyzeFile] leaves when called on the mounted component
    with a file whose name is empty. *)
Definition empty_name_session (img : bool) (res : Result.t) : AppState :=
  render (submitted [] img res mounted).

(** One step of the session of a file with an empty name of category
    [img]: no algorithm ticks and the roster timer does not exist; the
    progress stays 0 and the completion list empty; the result is stored at
    9000 ms but not shown; the overall timer ends the analysis at 10 s for an
    image and 15 s otherwise. *)
Definition empty_name_ok (img : bool) (st : AppState * Timer * AppState) : bool :=
  let '(s, t, s') := st in
  negb (is_algorithm_tick t) && negb (is_roster_timeout t)
  && bool_decide (completedAlgorithms s' = [])
  && forallb (fun a => PrimFloat.eqb (progress_of s' (Algorithm.name a)) 0%float)
             ANALYSIS_ALGORITHMS
  && match callback t with
     | AnalysisTimeout =>
         (due t =? if img then 10000 else 15000)
         && cur (isAnalyzing s) && negb (revealed s) && revealed s'
     | PublishResult _ =>
         (due t =? 9000) && cur (isAnalyzing s') && negb (revealed s')
     | _ => cur (isAnalyzing s') && negb (revealed s')
     end.

Definition empty_name_run_ok (img : bool) (s0 : AppState)
    (tr : list (Timer * AppState)) (final : AppState) : bool :=
  forallb (empty_name_ok img) (steps s0 tr)
  && revealed final
  && bool_decide (timers final = []).

(** The component once the first session of a file named [nm] is over. *)
Definition after_first_session (nm : js_string) (img : bool) (res : Result.t)
  : AppState :=
  {| isAnalyzing := Cell false false false;
     result := Some res;
     analysisStep := 0;
     analysisProgress := 0%float;
     processingImage := Cell None None false;
     currentFileName := Cell nm nm false;
     algorithmProgress := all_algorithms 0%float;
     algorithmAccuracy := all_algorithms 0.76%float;
     completedAlgorithms := [];
     cleanup := [];
     timers := [];
     nextId := 10;
     nextUrl := if img then 1 else 0;
     now := 9000 |}.

(** The second file is submitted 12000 ms after the first, that is 3000 ms
    after the first result was revealed. *)
Definition second_start (nm1 : js_string) (img1 : bool) (res1 : Result.t)
  : AppState :=
  with_now 12000 (after_first_session nm1 img1 res1).

Definition second_session (nm1 : js_string) (img1 : bool) (res1 : Result.t)
    (nm2 : js_string) (img2 : bool) (res2 : Result.t)
    (target : float -> float) : AppState :=
  rendered_cells
    (roster_started target
       (progress_effect (submitted nm2 img2 res2 (second_start nm1 img1 res1)))).

(** One step of the second session, seen from the reveal: as [reveal_ok],
    12000 ms later. *)
Definition second_reveal_ok (st : AppState * Timer * AppState) : bool :=
  let '(s, t, s') := st in
  match callback t with
  | RosterTimeout =>
      (due t =? 12000 + Math_max_of (map Algorithm.duration ANALYSIS_ALGORITHMS)
                + 1000)
      && cur (isAnalyzing s) && negb (revealed s) && revealed s'
  | AnalysisTimeout => false
  | _ =>
      cur (isAnalyzing s') && negb (revealed s')
      && match result s' with
         | Some _ => 21000 <=? due t
         | None => true
         end
  end.

Definition second_run_ok (s0 : AppState) (tr : list (Timer * AppState))
    (final : AppState) : bool :=
  cur (isAnalyzing s0) && negb (revealed s0)
  && forallb second_reveal_ok (steps s0 tr)
  && forallb
       (fun a =>
          bool_decide (tick_times a tr
                       = map (Z.add 12000) (every_50ms (ticks_needed a))))
       ANALYSIS_ALGORITHMS
  && revealed final
  && bool_decide (timers final = [])
  && (now final =? 21000).

Definition near_base (r : Z) : bool :=
  forallb
    (fun a =>
       let b := Algorithm.baseAccuracy a in
       let t := accuracy_of_residue r b in
       PrimFloat.leb (b - 0.05)%float t && PrimFloat.leb t (b + 0.05)%float)
    ANALYSIS_ALGORITHMS.

(** ** Sessions submitted on an idle component *)

(** No analysis is under way and none has left anything behind: the state
    of the component after mounting, and again after the reveal of a session
    that nothing interrupted.  The clock, the serial numbers of the timers
    and URLs, the stored result and the last file name are free. *)
Definition idle (s : AppState) : Prop :=
  isAnalyzing s = Cell false false false
  /\ processingImage s = Cell None None false
  /\ analysisStep s = 0
  /\ analysisProgress s = 0%float
  /\ algorithmProgress s = all_algorithms 0%float
  /\ algorithmAccuracy s = all_algorithms 0.76%float
  /\ completedAlgorithms s = []
  /\ cleanup s = []
  /\ timers s = [].

(** The same component [d] ms later, after [k] more timers and [u] more
    object URLs have been created. *)
Definition shift_timer (d k : Z) (t : Timer) : Timer :=
  mkTimer (timer_id t + k) (due t + d) (period t) (callback t).

Definition shift_url (u : Z) (c : cell (option Z)) : cell (option Z) :=
  Cell (option_map (fun x => x + u) (cur c))
       (option_map (fun x => x + u) (rendered c)) (changed c).

Definition shift (d k u : Z) (s : AppState) : AppState :=
  {| isAnalyzing := isAnalyzing s;
     result := result s;
     analysisStep := analysisStep s;
     analysisProgress := analysisProgress s;
     processingImage := shift_url u (processingImage s);
     currentFileName := currentFileName s;
     algorithmProgress := algorithmProgress s;
     algorithmAccuracy := algorithmAccuracy s;
     completedAlgorithms := completedAlgorithms s;
     cleanup := map (fun id => id + k) (cleanup s);
     timers := map (shift_timer d k) (timers s);
     nextId := nextId s + k;
     nextUrl := nextUrl s + u;
     now := now s + d |}.

Definition shift_trace (d k u : Z) (tr : list (Timer * AppState))
  : list (Timer * AppState) :=
  map (fun x => (shift_timer d k (fst x), shift d k u (snd x))) tr.

Definition shift_step (d k u : Z) (st : AppState * Timer * AppState)
  : AppState * Timer * AppState :=
  let '(s, t, s') := st in (shift d k u s, shift_timer d k t, shift d k u s').

(** A document whose name is the empty string. *)
Definition unnamed_document : File.t := File.mk [] 1234 "application/pdf".

(** C5 for the session of [file] submitted on the component in state [s0],
    where [tr] is the run of the 9000 ms after the submission and [final]
    the state it ends in: the analysis is running and nothing is revealed
    after every task until the roster timer fires; that timer is the last
    task and fires 9000 ms after the submission, which is the longest roster
    duration plus 1000 ms; the overall timer of 10 s or 15 s never fires;
    then [isAnalyzing] is false, the stored result is the one computed at
    submission, it is revealed, and no timer is pending. *)
Definition roster_timer_reveals (s0 : AppState) (file : File.t)
    (tr : list (Timer * AppState)) (final : AppState) : Prop :=
  let start := now s0 in
  let s1 := analyzeFile file s0 in
  elapse 2000 (start + 9000) s1 = Some (tr, final)
  /\ cur (isAnalyzing s1) = true
  /\ revealed s1 = false
  /\ Forall (fun st => reveal_ok start st = true) (steps s1 tr)
  /\ (exists t s, last tr = Some (t, s) /\ callback t = RosterTimeout
                  /\ due t = start + 9000)
  /\ Math_max_of (map Algorithm.duration ANALYSIS_ALGORITHMS) + 1000 = 9000
  /\ cur (isAnalyzing final) = false
  /\ result final = Some (generateConsistentResult file)
  /\ revealed final = true
  /\ timers final = []
  /\ now final = start + 9000.

(** C6 for the session of [file] submitted on the component in state [s0],
    where [tr] is the run until just before the reveal and [final] the state
    it ends in.  For every roster algorithm: progress starts at 0 and
    accuracy at 0.76; the algorithm's interval fires 50, 100, ... ms after
    the submission, each tick setting the progress to
    [min (progress + 100 * 50 / duration, 100)] and the accuracy to
    [min (accuracy + (target - 0.76) * 50 / duration, target)], no other task
    touching them; neither ever decreases; the interval has stopped before
    9000 ms have passed, with the progress equal to 100 and the accuracy
    within 1e-6 of the target accuracy. *)
Definition algorithms_reach_target (s0 : AppState) (file : File.t)
    (tr : list (Timer * AppState)) (final : AppState) : Prop :=
  let start := now s0 in
  let s1 := analyzeFile file s0 in
  elapse 2000 (start + 8999) s1 = Some (tr, final)
  /\ Forall
       (fun a =>
          let nm := Algorithm.name a in
          let target :=
            getAlgorithmAccuracy (File.name file) (Algorithm.baseAccuracy a) in
          PrimFloat.eqb (progress_of s1 nm) 0%float = true
          /\ PrimFloat.eqb (accuracy_of s1 nm) 0.76%float = true
          /\ Forall (fun st => progress_tick_ok start a st = true) (steps s1 tr)
          /\ Forall (fun st => accuracy_tick_ok target a st = true) (steps s1 tr)
          /\ tick_times a tr = map (Z.add start) (every_50ms (ticks_needed a))
          /\ 50 * Z.of_nat (ticks_needed a) < 9000
          /\ stopped a final = true
          /\ PrimFloat.eqb (progress_of final nm) 100%float = true
          /\ PrimFloat.leb (abs (accuracy_of final nm - target))%float
                           1e-6%float = true)
       ANALYSIS_ALGORITHMS.

(** C7 for the session of [file] submitted on the component in state [s0],
    where [tr] is the run until just before the reveal and [final] the state
    it ends in: the completion list starts empty; a task either leaves it
    alone or appends one name, and it appends the name of an algorithm
    exactly when that algorithm's tick takes its progress from below 100 to
    100; after every task the list has no duplicate and holds exactly the
    algorithms whose progress is 100; a completed algorithm stays completed,
    is not ticked again, keeps its progress of 100 and its accuracy entry; at
    the end the list holds each of the five names once. *)
Definition completion_list_in_order (s0 : AppState) (file : File.t)
    (tr : list (Timer * AppState)) (final : AppState) : Prop :=
  let start := now s0 in
  let s1 := analyzeFile file s0 in
  elapse 2000 (start + 8999) s1 = Some (tr, final)
  /\ completedAlgorithms s1 = []
  /\ Forall (fun st => completion_ok st = true) (steps s1 tr)
  /\ Forall (fun st => completed_ok (snd st) = true) (steps s1 tr)
  /\ Forall (fun st => pinned_ok st = true) (steps s1 tr)
  /\ Forall
       (fun st =>
          let '(s, t, s') := st in
          forall a,
            In a ANALYSIS_ALGORITHMS ->
            Algorithm.name a ∈ completedAlgorithms s ->
            algorithmAccuracy s' !! Algorithm.name a
            = algorithmAccuracy s !! Algorithm.name a)
       (steps s1 tr)
  /\ completedAlgorithms final ≡ₚ map Algorithm.name ANALYSIS_ALGORITHMS.

(** * Verified properties *)

(** ** Arithmetic of the hash *)

Lemma fingerprint_nonneg (file : File.t) : 0 <= fingerprint file.
Proof. unfold fingerprint. lia. Qed.

Lemma rem_is_mod (a b : Z) : 0 <= a -> 0 < b -> Z.rem a b = a mod b.
Proof. intros Ha Hb. apply Z.rem_mod_nonneg; lia. Qed.

Lemma rem_shift (h i m : Z) :
  0 <= h -> 0 <= i -> 0 < m -> Z.rem (h + i) m = Z.rem (h mod m + i) m.
Proof.
  intros Hh Hi Hm.
  pose proof (Z.mod_pos_bound h m Hm) as Hb.
  rewrite !rem_is_mod by lia.
  rewrite (Z.add_mod h i m), (Z.add_mod (h mod m) i m) by lia.
  now rewrite Z.mod_mod by lia.
Qed.

Lemma residues_forall (n : nat) (P : Z -> bool) :
  forallb P (residues n) = true ->
  forall r, 0 <= r < Z.of_nat n -> P r = true.
Proof.
  intros H r Hr.
  rewrite forallb_forall in H. apply H.
  unfold residues. apply in_map_iff. exists (Z.to_nat r). split; [lia|].
  apply in_seq. lia.
Qed.

(** ** Index filters *)

Lemma filter_from_ext {A} (keep keep' : Z -> bool) (xs : list A) :
  forall i, (forall j, i <= j -> keep j = keep' j) ->
            filter_from keep i xs = filter_from keep' i xs.
Proof.
  induction xs as [|x r IH]; intros i H; cbn [filter_from]; [reflexivity|].
  rewrite (H i) by lia.
  rewrite (IH (i + 1)) by (intros j Hj; apply H; lia).
  reflexivity.
Qed.

Lemma filter_index_residue {A} (m h : Z) (xs : list A) :
  0 <= h -> 0 < m ->
  filter_index (fun index => Z.rem (h + index) m =? 0) xs
  = filter_index (fun index => Z.rem (h mod m + index) m =? 0) xs.
Proof.
  intros Hh Hm. unfold filter_index. apply filter_from_ext.
  intros j Hj. now rewrite (rem_shift h j m) by lia.
Qed.

Lemma filter_from_sublist {A} (keep : Z -> bool) (xs : list A) :
  forall i, sublist (filter_from keep i xs) xs.
Proof.
  induction xs as [|x r IH]; intros i; cbn [filter_from].
  - constructor.
  - destruct (keep i); [apply sublist_skip | apply sublist_cons]; apply IH.
Qed.

Lemma mod3_cases (h : Z) : h mod 3 = 0 \/ h mod 3 = 1 \/ h mod 3 = 2.
Proof. pose proof (Z.mod_pos_bound h 3). lia. Qed.

Lemma mod2_cases (h : Z) : h mod 2 = 0 \/ h mod 2 = 1.
Proof. pose proof (Z.mod_pos_bound h 2). lia. Qed.

(** The mod-3 filter of a catalog, by residue of the hash. *)
Lemma filter3 {A} (h : Z) (xs : list A) :
  0 <= h ->
  filter_index (fun index => Z.rem (h + index) 3 =? 0) xs
  = filter_index (fun index => Z.rem (h mod 3 + index) 3 =? 0) xs.
Proof. intros Hh. now apply filter_index_residue. Qed.

(** ** C1: the result is a function of the fingerprint and the category *)

(** C1. Two files with the same name length plus byte size and the same
    image/non-image category get the same result: every field is computed
    from the fingerprint and the category alone. *)
Theorem C1_result_determined_by_fingerprint_and_category (f1 f2 : File.t) :
  (Z.of_nat (length (File.name f1)) + Z.of_N (File.size f1)
   = Z.of_nat (length (File.name f2)) + Z.of_N (File.size f2)) ->
  mediaIsImage f1 = mediaIsImage f2 ->
  generateConsistentResult f1 = generateConsistentResult f2.
Proof.
  intros Hhash Hcat.
  unfold generateConsistentResult.
  unfold mediaIsImage in Hcat.
  rewrite Hhash, Hcat.
  reflexivity.
Qed.

Lemma C1_witness :
  generateConsistentResult (File.mk (utf16 "a.png") 95 "image/png")
  = generateConsistentResult (File.mk (utf16 "scan.jpeg") 91 "image/jpeg").
Proof.
  apply C1_result_determined_by_fingerprint_and_category; reflexivity.
Defined.

(** ** C2: flags, probability and confidence *)

Lemma probability_bounds (f : Z) :
  0 <= f -> probability_in_range (f mod 100) = true.
Proof.
  intros Hf. apply (residues_forall 100).
  - vm_compute. reflexivity.
  - pose proof (Z.mod_pos_bound f 100). lia.
Qed.

Lemma confidence_bounds (f : Z) :
  0 <= f -> confidence_in_range (f mod 15) = true.
Proof.
  intros Hf. apply (residues_forall 15).
  - vm_compute. reflexivity.
  - pose proof (Z.mod_pos_bound f 15). lia.
Qed.

(** C2. For the fingerprint [f] of any file, the three flags are the
    divisibility tests of [f] by 2, 3 and 4, the probability is
    [(f mod 100) / 100] and the confidence [0.85 + (f mod 15) / 100], in
    binary64 arithmetic; the probability lies in [0, 0.99] and the confidence
    in [0.85, 1). *)
Theorem C2_flags_probability_confidence (file : File.t) :
  let f := fingerprint file in
  let r := generateConsistentResult file in
  Result.hasSwelling r = (f mod 2 =? 0)
  /\ Result.hasShrinkage r = (f mod 3 =? 0)
  /\ Result.hasPores r = (f mod 4 =? 0)
  /\ Result.ckdProbability r = (number (f mod 100) / 100)%float
  /\ Result.confidence r = (0.85 + number (f mod 15) / 100)%float
  /\ PrimFloat.leb 0%float (Result.ckdProbability r) = true
  /\ PrimFloat.leb (Result.ckdProbability r) 0.99%float = true
  /\ PrimFloat.leb 0.85%float (Result.confidence r) = true
  /\ PrimFloat.ltb (Result.confidence r) 1%float = true.
Proof.
  intros f r.
  pose proof (fingerprint_nonneg file) as Hf. fold f in Hf.
  subst r. unfold generateConsistentResult. fold (fingerprint file). fold f.
  cbn [Result.hasSwelling Result.hasShrinkage Result.hasPores
       Result.ckdProbability Result.confidence].
  rewrite !rem_is_mod by lia.
  pose proof (probability_bounds f Hf) as Hp.
  pose proof (confidence_bounds f Hf) as Hc.
  unfold probability_in_range in Hp. unfold confidence_in_range in Hc.
  cbv zeta in Hp, Hc.
  apply andb_true_iff in Hp as [Hp0 Hp1].
  apply andb_true_iff in Hc as [Hc0 Hc1].
  repeat split; assumption.
Qed.

(** ** C10: sizes of the mod-3 filtered lists *)

Lemma map_from_length {A B} (f : A -> Z -> B) (xs : list A) :
  forall i, length (map_from f i xs) = length xs.
Proof.
  induction xs as [|x r IH]; intros i; cbn [map_from length]; [reflexivity|].
  now rewrite IH.
Qed.

Lemma generateParameters_length (hash : Z) :
  0 <= hash -> length (generateParameters hash) = 4%nat.
Proof.
  intros Hh. unfold generateParameters, map_index.
  rewrite map_from_length, filter3 by assumption.
  destruct (mod3_cases hash) as [E|[E|E]]; rewrite E; reflexivity.
Qed.

(** C10. For the fingerprint [f] of any file: [otherIssues] has one entry
    when [f mod 3 = 1] and two otherwise (so it is never empty);
    [parameters], when present, has four entries; the dietary and lifestyle
    lists have four entries when [f mod 3 = 0] and three otherwise, so the
    cut at five never removes anything. *)
Theorem C10_filtered_list_sizes (file : File.t) :
  let f := fingerprint file in
  let r := generateConsistentResult file in
  length (Result.otherIssues r) = (if f mod 3 =? 1 then 1%nat else 2%nat)
  /\ Result.otherIssues r <> []
  /\ (forall ps, Result.parameters r = Some ps -> length ps = 4%nat)
  /\ length (Result.dietaryRecommendations r) = (if f mod 3 =? 0 then 4%nat else 3%nat)
  /\ length (Result.lifestyleRecommendations r) = (if f mod 3 =? 0 then 4%nat else 3%nat)
  /\ Result.dietaryRecommendations r
     = filter_index (fun index => (f + index) mod 3 =? 0) DIETARY_RECOMMENDATIONS
  /\ Result.lifestyleRecommendations r
     = filter_index (fun index => (f + index) mod 3 =? 0) LIFESTYLE_RECOMMENDATIONS.
Proof.
  intros f r.
  pose proof (fingerprint_nonneg file) as Hf. fold f in Hf.
  assert (Hmod : forall {A} (xs : list A),
             filter_index (fun index => (f + index) mod 3 =? 0) xs
             = filter_index (fun index => Z.rem (f mod 3 + index) 3 =? 0) xs).
  { intros A xs. rewrite <- filter3 by assumption.
    unfold filter_index. apply filter_from_ext.
    intros j Hj. now rewrite rem_is_mod by lia. }
  subst r. unfold generateConsistentResult. fold (fingerprint file). fold f.
  cbn [Result.otherIssues Result.parameters Result.dietaryRecommendations
       Result.lifestyleRecommendations].
  unfold getOtherIssues.
  rewrite !Hmod.
  rewrite (filter3 f issues), (filter3 f DIETARY_RECOMMENDATIONS),
    (filter3 f LIFESTYLE_RECOMMENDATIONS) by assumption.
  repeat split.
  - destruct (mod3_cases f) as [E|[E|E]]; rewrite E; reflexivity.
  - destruct (mod3_cases f) as [E|[E|E]]; rewrite E; discriminate.
  - intros ps Hps.
    destruct (negb (startsWith (File.type file) "image/")); [|discriminate].
    injection Hps as <-. now apply generateParameters_length.
  - destruct (mod3_cases f) as [E|[E|E]]; rewrite E; reflexivity.
  - destruct (mod3_cases f) as [E|[E|E]]; rewrite E; reflexivity.
  - destruct (mod3_cases f) as [E|[E|E]]; rewrite E; reflexivity.
  - destruct (mod3_cases f) as [E|[E|E]]; rewrite E; reflexivity.
Qed.

(** ** C3: the parameter readings *)

Lemma map_from_ext {A B} (f g : A -> Z -> B) (xs : list A) :
  forall i, (forall x j, i <= j -> f x j = g x j) ->
            map_from f i xs = map_from g i xs.
Proof.
  induction xs as [|x r IH]; intros i H; cbn [map_from]; [reflexivity|].
  rewrite (H x i) by lia.
  rewrite (IH (i + 1)) by (intros y j Hj; apply H; lia).
  reflexivity.
Qed.

(** What the source computes: the reading of a kept entry is indexed by the
    entry's position among the kept ones. *)
Lemma generateParameters_readings (hash : Z) :
  0 <= hash ->
  generateParameters hash
  = map_index (fun param j => reading hash j param)
      (filter_index (fun i => Z.rem (hash mod 3 + i) 3 =? 0) CKD_PARAMETERS).
Proof.
  intros Hh. unfold generateParameters. rewrite filter3 by assumption.
  unfold map_index. apply map_from_ext. intros param j Hj.
  unfold reading. cbv zeta.
  rewrite !rem_is_mod by nia.
  reflexivity.
Qed.

Lemma opp_mod3 (f : Z) :
  (f mod 3 = 0 /\ (- f) mod 3 = 0)
  \/ (f mod 3 = 1 /\ (- f) mod 3 = 2)
  \/ (f mod 3 = 2 /\ (- f) mod 3 = 1).
Proof.
  pose proof (Z.div_mod f 3). pose proof (Z.div_mod (- f) 3).
  pose proof (Z.mod_pos_bound f 3). pose proof (Z.mod_pos_bound (- f) 3).
  lia.
Qed.

(** C3 as stated fails: for fingerprint 1 the kept entries are the catalog
    indices 2, 5, 8 and 11, and the source gives them the raw values 1, 2, 3
    and 4 (multipliers 1 to 4, by position in the kept list), not 3, 6, 9 and
    12 (multipliers from the catalog index). *)
Lemma C3_counterexample :
  map ParamReading.value (generateParameters 1)
  = ["1.0g/dL"; "2.0mg/dL"; "3.0g/dL"; "4.0millions/cu.mm"]
  /\ map ParamReading.value (parameters_by_catalog_index 1)
     = ["3.0g/dL"; "6.0mg/dL"; "9.0g/dL"; "12.0millions/cu.mm"]
  /\ generateParameters 1 <> parameters_by_catalog_index 1.
Proof.
  split; [reflexivity|]. split; [reflexivity|].
  intros H. apply (f_equal (map ParamReading.value)) in H.
  vm_compute in H. discriminate H.
Qed.

(** C3, amended. The parameters are present exactly for a non-image file;
    they are then the readings of the catalog entries at the indices [i] with
    [(f + i) mod 3 = 0], in catalog order, where the entry at position [j] of
    that kept list (catalog index [(-f) mod 3 + 3 j]) has raw value
    [(f * (j + 1)) mod 100] with one decimal and the status given by
    [(f + length name) mod 3]: 0 high, 1 low, otherwise normal. *)
Theorem C3_parameters (file : File.t) :
  let f := fingerprint file in
  let r := generateConsistentResult file in
  Result.parameters r
  = (if mediaIsImage file then None
     else Some (map_index (fun param j => reading f j param)
                  (filter_index (fun i => (f + i) mod 3 =? 0) CKD_PARAMETERS)))
  /\ (forall ps (j : nat),
        Result.parameters r = Some ps ->
        ps !! j
        = if (j <? 4)%nat
          then reading f (Z.of_nat j)
                 <$> CKD_PARAMETERS !! (Z.to_nat ((- f) mod 3) + 3 * j)%nat
          else None).
Proof.
  intros f r.
  pose proof (fingerprint_nonneg file) as Hf. fold f in Hf.
  assert (Hmod : filter_index (fun i => (f + i) mod 3 =? 0) CKD_PARAMETERS
                 = filter_index (fun i => Z.rem (f mod 3 + i) 3 =? 0) CKD_PARAMETERS).
  { rewrite <- filter3 by assumption. unfold filter_index.
    apply filter_from_ext. intros j Hj. now rewrite rem_is_mod by lia. }
  assert (Hp : Result.parameters r
               = if mediaIsImage file then None
                 else Some (map_index (fun param j => reading f j param)
                              (filter_index (fun i => (f + i) mod 3 =? 0)
                                            CKD_PARAMETERS))).
  { subst r. unfold generateConsistentResult, mediaIsImage.
    fold (fingerprint file). fold f. cbn [Result.parameters].
    destruct (startsWith (File.type file) "image/"); cbn [negb]; [reflexivity|].
    now rewrite generateParameters_readings, Hmod by assumption. }
  split; [exact Hp|].
  intros ps j Hps. rewrite Hp in Hps.
  destruct (mediaIsImage file); [discriminate|].
  injection Hps as <-. rewrite Hmod.
  destruct (opp_mod3 f) as [[E E']|[[E E']|[E E']]]; rewrite E, E';
    destruct j as [|[|[|[|j]]]]; reflexivity.
Qed.

(** ** C8: the recommendations *)

Lemma risk_tier_thresholds (f : Z) :
  0 <= f ->
  risk_tier f = if 70 <? f mod 100 then HighRisk
                else if 30 <? f mod 100 then MediumRisk
                else LowRisk.
Proof.
  intros Hf.
  assert (H : tier_by_residue (f mod 100) = true).
  { apply (residues_forall 100).
    - vm_compute. reflexivity.
    - pose proof (Z.mod_pos_bound f 100). lia. }
  unfold tier_by_residue in H. cbv zeta in H.
  apply andb_true_iff in H as [H7 H3].
  apply eqb_prop in H7. apply eqb_prop in H3.
  unfold risk_tier. cbv zeta. now rewrite H7, H3.
Qed.

Lemma getRecommendations_spec (f : Z) :
  0 <= f -> getRecommendations f = recommendations_of f.
Proof.
  intros Hf. unfold getRecommendations, recommendations_of, risk_tier, slice0.
  cbv zeta. rewrite (rem_is_mod f 100) by lia.
  assert (E : forall xs : list string,
             filter_index (fun index => Z.rem (f + index) 2 =? 0) xs
             = filter_index (fun i => (f + i) mod 2 =? 0) xs).
  { intros xs. unfold filter_index. apply filter_from_ext.
    intros j Hj. now rewrite rem_is_mod by lia. }
  rewrite E.
  destruct (PrimFloat.ltb 0.7 (number (f mod 100) / 100));
    [reflexivity|].
  destruct (PrimFloat.ltb 0.3 (number (f mod 100) / 100)); reflexivity.
Qed.

(** The source's [filter] on the index keeps what the spec's filter keeps. *)
Lemma filter_from_survivors {A} (keep : Z -> bool) (xs : list A) :
  forall n : nat,
    filter_from keep (Z.of_nat n) xs
    = map snd (List.filter (fun entry => keep (Z.of_nat (fst entry)))
                           (combine (seq n (length xs)) xs)).
Proof.
  induction xs as [|x r IH]; intros n; [reflexivity|].
  cbn [filter_from length seq combine List.filter fst].
  replace (Z.of_nat n + 1) with (Z.of_nat (S n)) by lia.
  rewrite IH. destruct (keep (Z.of_nat n)); reflexivity.
Qed.

Lemma filter_index_survivors {A} (keep : Z -> bool) (xs : list A) :
  filter_index keep xs = survivors keep xs.
Proof. unfold filter_index, survivors. apply (filter_from_survivors keep xs 0). Qed.

(** The kept entries by position: an even fingerprint keeps the catalog
    indices 0, 2, 4, an odd one the indices 1, 3. *)
Lemma recommendations_of_lookup (f : Z) (k : nat) :
  0 <= f ->
  recommendations_of f !! k
  = if (k <? 3)%nat
    then tier_catalog (risk_tier f) !! (2 * k + Z.to_nat (f mod 2))%nat
    else None.
Proof.
  intros Hf. unfold recommendations_of.
  assert (E : filter_index (fun i => (f + i) mod 2 =? 0) (tier_catalog (risk_tier f))
              = filter_index (fun i => Z.rem (f mod 2 + i) 2 =? 0)
                             (tier_catalog (risk_tier f))).
  { rewrite <- (filter_index_residue 2 f) by lia.
    unfold filter_index. apply filter_from_ext. intros j Hj.
    now rewrite rem_is_mod by lia. }
  rewrite E.
  destruct (mod2_cases f) as [E2|E2]; rewrite E2;
    destruct (risk_tier f);
    (destruct k as [|[|[|k]]]; reflexivity).
Qed.

(** C8. For the fingerprint [f] of any file, with [p = (f mod 100) / 100]
    the tier is high when [p > 0.7], medium when [p > 0.3] and low otherwise
    (that is, [f mod 100] above 70, above 30, or neither); the
    recommendations are the entries of that tier's catalog at the indices
    [i] with [(f + i) mod 2 = 0], in catalog order, cut to the first three.
    Entry [k] of the list is therefore the catalog entry [2 k + f mod 2] for
    [k < 3], and there is no further entry; the list is an order-preserving
    selection from the catalog of length at most 3. *)
Theorem C8_recommendations (file : File.t) :
  let f := fingerprint file in
  let recs := Result.recommendations (generateConsistentResult file) in
  let catalog := tier_catalog (risk_tier f) in
  recs = recommendations_by_spec f
  /\ risk_tier f = (if 70 <? f mod 100 then HighRisk
                    else if 30 <? f mod 100 then MediumRisk
                    else LowRisk)
  /\ (forall k : nat,
        recs !! k = if (k <? 3)%nat
                    then catalog !! (2 * k + Z.to_nat (f mod 2))%nat
                    else None)
  /\ sublist recs catalog
  /\ (length recs <= 3)%nat.
Proof.
  intros f recs catalog.
  pose proof (fingerprint_nonneg file) as Hf. fold f in Hf.
  assert (Hr : recs = recommendations_of f).
  { subst recs. unfold generateConsistentResult. fold (fingerprint file). fold f.
    cbn [Result.recommendations]. now apply getRecommendations_spec. }
  split.
  { rewrite Hr. unfold recommendations_of, recommendations_by_spec.
    now rewrite filter_index_survivors. }
  split; [now apply risk_tier_thresholds|].
  split; [intros k; rewrite Hr; now apply recommendations_of_lookup|].
  rewrite Hr. unfold recommendations_of. split.
  - etransitivity; [apply sublist_take|]. apply filter_from_sublist.
  - rewrite length_firstn. lia.
Qed.

(** ** C9: the target accuracy *)

Lemma residues_Forall (n : nat) (P : Z -> Prop) :
  Forall P (residues n) -> forall r, 0 <= r < Z.of_nat n -> P r.
Proof.
  intros H r Hr. rewrite Forall_forall in H. apply H.
  unfold residues. apply list_elem_of_In, in_map_iff.
  exists (Z.to_nat r). split; [lia|]. apply in_seq. lia.
Qed.

Lemma charCodeSum_from (fileName : js_string) :
  forall acc, 0 <= acc ->
    0 <= fold_left (fun acc char => acc + Z.of_N char) fileName acc.
Proof.
  induction fileName as [|c r IH]; intros acc Hacc; cbn [fold_left]; [assumption|].
  apply IH. lia.
Qed.

Lemma charCodeSum_nonneg (fileName : js_string) : 0 <= charCodeSum fileName.
Proof. unfold charCodeSum. now apply charCodeSum_from. Qed.

Lemma getAlgorithmAccuracy_residue (fileName : js_string) :
  getAlgorithmAccuracy fileName
  = accuracy_of_residue (charCodeSum fileName mod 100).
Proof.
  unfold getAlgorithmAccuracy, accuracy_of_residue. cbv zeta.
  rewrite rem_is_mod by (pose proof (charCodeSum_nonneg fileName); lia).
  reflexivity.
Qed.

Lemma target_ok_all : Forall target_ok (residues 100).
Proof.
  unfold residues. cbn [seq map].
  repeat (apply List.Forall_cons;
          [ unfold target_ok, ANALYSIS_ALGORITHMS;
            repeat (apply List.Forall_cons; [vm_compute; auto|]);
            apply List.Forall_nil
          | ]).
  apply List.Forall_nil.
Qed.

Lemma charCodeSum_acc (fileName : js_string) :
  forall acc,
    fold_left (fun acc char => acc + Z.of_N char) fileName acc
    = acc + sum_of_character_codes fileName.
Proof.
  induction fileName as [|c r IH]; intros acc;
    cbn [fold_left sum_of_character_codes]; [lia|].
  rewrite IH. lia.
Qed.

(** The [reduce] of the source computes the sum of the character codes. *)
Lemma charCodeSum_sum (fileName : js_string) :
  charCodeSum fileName = sum_of_character_codes fileName.
Proof. unfold charCodeSum. now rewrite charCodeSum_acc. Qed.

(** C9. For every file name, the hash the source computes is the sum of the
    character codes of the name, and for every roster entry the target
    accuracy is [clamp (baseAccuracy + variation) 0.85 0.99] with
    [variation = ((sum mod 100) / 100) * 0.1 - 0.05] for that sum; it lies in
    [0.85, 0.99]. *)
Theorem C9_target_accuracy (fileName : js_string) :
  charCodeSum fileName = sum_of_character_codes fileName
  /\ Forall
       (fun alg =>
          let t := getAlgorithmAccuracy fileName (Algorithm.baseAccuracy alg) in
          t = targetAccuracy fileName (Algorithm.baseAccuracy alg)
          /\ PrimFloat.leb 0.85%float t = true
          /\ PrimFloat.leb t 0.99%float = true)
       ANALYSIS_ALGORITHMS.
Proof.
  split; [apply charCodeSum_sum|].
  pose proof (charCodeSum_nonneg fileName) as Hn.
  pose proof (Z.mod_pos_bound (charCodeSum fileName) 100) as Hb.
  assert (H : target_ok (charCodeSum fileName mod 100)).
  { apply (residues_Forall 100 target_ok target_ok_all). lia. }
  unfold target_ok in H.
  rewrite getAlgorithmAccuracy_residue. unfold targetAccuracy. cbv zeta.
  rewrite <- charCodeSum_sum. exact H.
Qed.

(** ** The event loop: what one task does *)

Lemma forallb_Forall {A} (p : A -> bool) (l : list A) :
  forallb p l = true -> Forall (fun x => p x = true) l.
Proof.
  intros H. apply Forall_forall. intros x Hx.
  rewrite forallb_forall in H. apply H. now apply list_elem_of_In.
Qed.

Lemma next_timer_In (ts : list Timer) (t : Timer) :
  next_timer ts = Some t -> In t ts.
Proof.
  revert t. induction ts as [|u r IH]; intros t; cbn [next_timer]; [discriminate|].
  destruct (next_timer r) as [v|].
  - intros [= <-]. destruct (earlier v u); [right; now apply IH | now left].
  - intros [= <-]. now left.
Qed.

Lemma next_due_In (horizon : Z) (s : AppState) (t : Timer) :
  next_due horizon s = Some t -> In t (timers s) /\ due t <= horizon.
Proof.
  unfold next_due. destruct (next_timer (timers s)) as [u|] eqn:E; [|discriminate].
  destruct (due u <=? horizon) eqn:Hd; [|discriminate].
  intros [= <-]. split; [now apply next_timer_In | lia].
Qed.

(** Every step of a run fires a pending timer that is due. *)
Lemma elapse_steps (fuel : nat) (horizon : Z) :
  forall s tr final,
    elapse fuel horizon s = Some (tr, final) ->
    Forall (fun st => let '(s, t, s') := st in
                      s' = fire t s /\ In t (timers s) /\ due t <= horizon)
           (steps s tr).
Proof.
  induction fuel as [|fuel IH]; intros s tr final; cbn [elapse].
  - destruct (next_due horizon s); [discriminate|].
    intros [= <- <-]. constructor.
  - destruct (next_due horizon s) as [t|] eqn:E.
    + destruct (elapse fuel horizon (fire t s)) as [[tr' final']|] eqn:E';
        [|discriminate].
      intros [= <- <-]. cbn [steps]. constructor.
      * apply next_due_In in E. tauto.
      * now apply (IH _ _ final').
    + intros [= <- <-]. constructor.
Qed.

Lemma quiet_render (s : AppState) : quiet (render s) = true.
Proof. reflexivity. Qed.

Lemma render_quiet (s : AppState) : quiet s = true -> render s = rendered_cells s.
Proof.
  unfold quiet. intros H.
  apply andb_true_iff in H as [H Hn]. apply andb_true_iff in H as [Ha Hp].
  apply negb_true_iff in Ha, Hp, Hn.
  unfold render, progress_effect. rewrite Ha, Hp. cbn [orb].
  unfold algorithm_effect. rewrite Ha, Hn. reflexivity.
Qed.

Lemma quiet_fire (t : Timer) (s : AppState) : quiet (fire t s) = true.
Proof. apply quiet_render. Qed.

(** A task other than the two timeouts leaves the dependencies of the
    effects alone, so no effect runs after it. *)
Lemma fire_quiet (t : Timer) (s : AppState) :
  quiet s = true -> ends_analysis t = false ->
  fire t s
  = rendered_cells
      (run_callback (timer_id t) (callback t)
         (with_now (due t)
            (with_timers
               (match period t with
                | Some p =>
                    (List.filter (fun u => negb (timer_id u =? timer_id t)) (timers s)
                     ++ [mkTimer (timer_id t) (due t + p) (Some p) (callback t)])%list
                | None =>
                    List.filter (fun u => negb (timer_id u =? timer_id t)) (timers s)
                end) s))).
Proof.
  intros Hq He. unfold fire. cbv zeta. apply render_quiet.
  unfold ends_analysis in He. destruct s. unfold quiet in *. cbn in Hq |- *.
  destruct (callback t); try discriminate; cbn.
  - destruct (PrimFloat.leb 100 analysisProgress0); exact Hq.
  - exact Hq.
  - destruct (PrimFloat.leb 100 _); exact Hq.
  - exact Hq.
Qed.

(** ** The first session: from [analyzeFile] to the started roster *)

Lemma analyzeFile_submitted (file : File.t) (s : AppState) :
  analyzeFile file s
  = render (submitted (File.name file) (mediaIsImage file)
                      (generateConsistentResult file) s).
Proof. reflexivity. Qed.

Lemma algorithm_effect_starts (s : AppState) (nm : js_string) :
  changed (isAnalyzing s) || changed (currentFileName s) = true ->
  cur (isAnalyzing s) = true ->
  cur (currentFileName s) = nm ->
  nm <> [] ->
  algorithm_effect s = roster_started (getAlgorithmAccuracy nm) s.
Proof.
  intros Hc Ha Hn Hne. unfold algorithm_effect. rewrite Hc, Ha, Hn.
  destruct nm as [|c n]; [contradiction|]. reflexivity.
Qed.

Lemma first_session (file : File.t) :
  File.name file <> [] ->
  analyzeFile file mounted
  = session_of (File.name file) (mediaIsImage file) (generateConsistentResult file)
      (getAlgorithmAccuracy (File.name file)).
Proof.
  intros Hn. rewrite analyzeFile_submitted.
  generalize (generateConsistentResult file) as res. intros res.
  generalize (mediaIsImage file) as img. intros img.
  destruct file as [[|c n] size type]; [contradiction|]. cbn [File.name].
  unfold session_of, render.
  rewrite (algorithm_effect_starts _ (c :: n)).
  - reflexivity.
  - destruct img; vm_compute; reflexivity.
  - destruct img; vm_compute; reflexivity.
  - destruct img; vm_compute; reflexivity.
  - discriminate.
Qed.

Lemma holds_of_elim
    (P : AppState -> list (Timer * AppState) -> AppState -> bool)
    (s0 : AppState) (run : option (list (Timer * AppState) * AppState)) :
  holds_of P s0 run = true ->
  exists tr final, run = Some (tr, final) /\ P s0 tr final = true.
Proof.
  destruct run as [[tr final]|]; cbn [holds_of]; intros H; [|discriminate].
  exists tr, final. split; [reflexivity|exact H].
Qed.

Lemma session_check_elim
    (P : AppState -> list (Timer * AppState) -> AppState -> bool)
    (horizon : Z) (nm : js_string) (res : Result.t) (target : float -> float)
    (img : bool) :
  session_check P horizon nm res target img = true ->
  exists tr final,
    elapse 2000 horizon (session_of nm img res target) = Some (tr, final)
    /\ P (session_of nm img res target) tr final = true.
Proof. unfold session_check. apply holds_of_elim. Qed.

(** A property that does not look at the accuracies, checked on a session
    of each category, holds of the first session of every file with a
    non-empty name. *)
Lemma session_property
    (P : AppState -> list (Timer * AppState) -> AppState -> bool)
    (horizon : Z) :
  (forall c n res target img,
      session_check P horizon (c :: n) res target img = true) ->
  forall file : File.t,
    File.name file <> [] ->
    exists tr final,
      elapse 2000 horizon (analyzeFile file mounted) = Some (tr, final)
      /\ P (analyzeFile file mounted) tr final = true.
Proof.
  intros Hall file Hn.
  rewrite (first_session file Hn).
  destruct (File.name file) as [|c n] eqn:En; [contradiction|].
  apply session_check_elim, Hall.
Qed.

(** ** The accuracies along a run *)

(** What a task other than the two timeouts does to the accuracies: a tick
    writes the entry of its algorithm, any other task writes nothing. *)
Lemma fire_accuracy (t : Timer) (s : AppState) :
  quiet s = true -> ends_analysis t = false ->
  algorithmAccuracy (fire t s)
  = match callback t with
    | AlgorithmTick a _ inc tg =>
        <[Algorithm.name a :=
            Math_min (or_default (algorithmAccuracy s !! Algorithm.name a)
                                 0.76%float + inc)%float tg]>
          (algorithmAccuracy s)
    | _ => algorithmAccuracy s
    end.
Proof.
  intros Hq He. rewrite (fire_quiet t s Hq He).
  unfold ends_analysis in He. destruct s.
  destruct (callback t); try discriminate; cbn.
  - destruct (PrimFloat.leb 100 analysisProgress0); reflexivity.
  - reflexivity.
  - destruct (PrimFloat.leb 100 _); reflexivity.
  - reflexivity.
Qed.

(** A task other than the two timeouts creates no timer: the callbacks
    pending after it were pending before it. *)
Lemma fire_callbacks (t : Timer) (s : AppState) (u : Timer) :
  quiet s = true -> ends_analysis t = false -> In t (timers s) ->
  In u (timers (fire t s)) ->
  exists u0, In u0 (timers s) /\ callback u = callback u0.
Proof.
  intros Hq He Ht. rewrite (fire_quiet t s Hq He).
  set (rest := List.filter (fun u => negb (timer_id u =? timer_id t)) (timers s)).
  set (pending := match period t with
                  | Some p => (rest ++ [mkTimer (timer_id t) (due t + p) (Some p)
                                                (callback t)])%list
                  | None => rest
                  end).
  assert (Hp : forall v, In v pending ->
                         exists u0, In u0 (timers s) /\ callback v = callback u0).
  { intros v Hv. subst pending. destruct (period t) as [p|].
    - apply in_app_or in Hv as [Hv|[<-|[]]].
      + exists v. split; [|reflexivity]. subst rest. now apply filter_In in Hv.
      + exists t. split; [assumption|reflexivity].
    - exists v. split; [|reflexivity]. subst rest. now apply filter_In in Hv. }
  clearbody pending. clear rest.
  unfold ends_analysis in He. destruct s. cbn in Hp |- *.
  destruct (callback t) eqn:Ecb; try discriminate; cbn.
  - destruct (PrimFloat.leb 100 analysisProgress0); cbn; intros Hu;
      [apply filter_In in Hu as [Hu _]|]; now apply Hp.
  - intros Hu. now apply Hp.
  - destruct (PrimFloat.leb 100 _); cbn; intros Hu;
      [apply filter_In in Hu as [Hu _]|]; now apply Hp.
  - intros Hu. now apply Hp.
Qed.

Lemma elapse_final (fuel : nat) (horizon : Z) :
  forall s tr final,
    elapse fuel horizon s = Some (tr, final) ->
    final = with_now (Z.max (now (last_state s tr)) horizon) (last_state s tr).
Proof.
  induction fuel as [|fuel IH]; intros s tr final; cbn [elapse].
  - destruct (next_due horizon s); [discriminate|].
    intros [= <- <-]. reflexivity.
  - destruct (next_due horizon s) as [t|] eqn:E.
    + destruct (elapse fuel horizon (fire t s)) as [[tr' final']|] eqn:E';
        [|discriminate].
      intros [= <- <-]. cbn [last_state]. now apply IH.
    + intros [= <- <-]. reflexivity.
Qed.

Lemma session_callbacks (nm : js_string) (img : bool) (res : Result.t)
    (target : float -> float) :
  map callback (timers (session_of nm img res target))
  = ([PublishResult res; ProgressTick (if img then 10000 else 15000); StepTick;
      AnalysisTimeout]
     ++ map (tick_callback target) ANALYSIS_ALGORITHMS ++ [RosterTimeout])%list.
Proof. destruct img; vm_compute; reflexivity. Qed.

Lemma session_registered (nm : js_string) (img : bool) (res : Result.t)
    (target : float -> float) :
  Forall (fun u => registered target (callback u))
         (timers (session_of nm img res target)).
Proof.
  apply Forall_forall. intros u Hu.
  assert (Hc : In (callback u) (map callback (timers (session_of nm img res target)))).
  { apply in_map. now apply list_elem_of_In. }
  rewrite session_callbacks in Hc.
  apply in_app_or in Hc as [Hc|Hc].
  - destruct Hc as [<-|[<-|[<-|[<-|[]]]]]; exact I.
  - apply in_app_or in Hc as [Hc|[<-|[]]]; [|exact I].
    apply in_map_iff in Hc as [a [<- Ha]]. split; [exact Ha|reflexivity].
Qed.

Lemma roster_name_inj (a a' : Algorithm.t) :
  In a ANALYSIS_ALGORITHMS -> In a' ANALYSIS_ALGORITHMS ->
  String.eqb (Algorithm.name a') (Algorithm.name a) = true -> a' = a.
Proof.
  intros Ha Ha' E.
  repeat (destruct Ha as [<-|Ha]; [|]); try contradiction;
    repeat (destruct Ha' as [<-|Ha']; [|]); try contradiction;
    first [reflexivity | vm_compute in E; discriminate E].
Qed.

(** Along a run in which no timeout fires, every state is as a render left
    it and every timer fired was registered by the effects. *)
Lemma run_registered (target : float -> float) (horizon : Z) :
  forall tr s,
    quiet s = true ->
    Forall (fun u => registered target (callback u)) (timers s) ->
    Forall (fun st => let '(s, t, s') := st in
                      s' = fire t s /\ In t (timers s) /\ due t <= horizon)
           (steps s tr) ->
    forallb (fun x => negb (ends_analysis (fst x))) tr = true ->
    Forall (fun st => let '(s, t, s') := st in
                      quiet s = true /\ ends_analysis t = false
                      /\ registered target (callback t) /\ s' = fire t s)
           (steps s tr).
Proof.
  induction tr as [|[t s'] r IH]; intros s Hq Hreg Hst Hne; cbn [steps].
  - constructor.
  - cbn [steps] in Hst. apply Forall_cons in Hst as [(Hf & Hin & _) Hst].
    cbn [forallb fst] in Hne. apply andb_true_iff in Hne as [He Hne].
    apply negb_true_iff in He.
    constructor.
    + repeat split; try assumption.
      rewrite Forall_forall in Hreg. apply Hreg. now apply list_elem_of_In.
    + apply IH; try assumption.
      * subst s'. apply quiet_fire.
      * apply Forall_forall. intros u Hu. apply list_elem_of_In in Hu.
        subst s'. destruct (fire_callbacks t s u Hq He Hin Hu) as (u0 & Hu0 & ->).
        rewrite Forall_forall in Hreg. apply Hreg. now apply list_elem_of_In.
Qed.

(** What one step does to the accuracy of algorithm [a]. *)
Lemma step_accuracy (target : float -> float) (a : Algorithm.t)
    (s : AppState) (t : Timer) :
  In a ANALYSIS_ALGORITHMS ->
  quiet s = true -> ends_analysis t = false ->
  registered target (callback t) ->
  let tg := target (Algorithm.baseAccuracy a) in
  algorithmAccuracy (fire t s) !! Algorithm.name a
  = if ticks a t
    then Some (Math_min
                 (or_default (algorithmAccuracy s !! Algorithm.name a) 0.76%float
                  + accuracyIncrement tg a)%float tg)
    else algorithmAccuracy s !! Algorithm.name a.
Proof.
  intros Ha Hq He Hreg tg. rewrite (fire_accuracy t s Hq He).
  unfold ticks. destruct (callback t) as [d| | |a' i ai tg'| |m] eqn:Ecb;
    try reflexivity.
  destruct Hreg as [Ha' Hcb]. unfold tick_callback in Hcb. cbv zeta in Hcb.
  injection Hcb as -> -> ->.
  destruct (String.eqb (Algorithm.name a') (Algorithm.name a)) eqn:E.
  - pose proof (roster_name_inj a a' Ha Ha' E) as ->.
    now rewrite lookup_insert_eq.
  - apply String.eqb_neq in E. now rewrite lookup_insert_ne.
Qed.

Lemma accuracy_run_ok_here (inc tg : float) (n : nat) (q : float) :
  accuracy_run_ok inc tg n q = true ->
  or_default (Some q) 0.76%float = q
  /\ PrimFloat.eqb q q = true /\ PrimFloat.leb q q = true.
Proof.
  intros H. destruct n; cbn [accuracy_run_ok] in H;
    repeat (apply andb_true_iff in H as [H ?]);
    apply negb_true_iff in H; unfold or_default; rewrite H; auto.
Qed.

(** The accuracy of algorithm [a] along a run, from the accuracy [q] with
    [n] ticks to come. *)
Lemma accuracy_along (target : float -> float) (a : Algorithm.t) :
  In a ANALYSIS_ALGORITHMS ->
  let tg := target (Algorithm.baseAccuracy a) in
  forall tr s n q,
    Forall (fun st => let '(s, t, s') := st in
                      quiet s = true /\ ends_analysis t = false
                      /\ registered target (callback t) /\ s' = fire t s)
           (steps s tr) ->
    algorithmAccuracy s !! Algorithm.name a = Some q ->
    accuracy_run_ok (accuracyIncrement tg a) tg n q = true ->
    length (tick_times a tr) = n ->
    Forall (fun st => accuracy_tick_ok tg a st = true) (steps s tr)
    /\ PrimFloat.leb
         (abs (accuracy_of (last_state s tr) (Algorithm.name a) - tg))%float
         1e-6%float = true.
Proof.
  intros Ha tg. induction tr as [|[t s'] r IH]; intros s n q Hst Hq Hok Hn.
  - cbn in Hn. subst n. split; [constructor|].
    cbn [last_state]. unfold accuracy_of. rewrite Hq.
    cbn [accuracy_run_ok] in Hok. now apply andb_true_iff in Hok as [_ Hok].
  - cbn [steps] in Hst. apply Forall_cons in Hst as [(Hqs & He & Hreg & Hf) Hst].
    pose proof (step_accuracy target a s t Ha Hqs He Hreg) as Hs.
    cbv zeta in Hs. fold tg in Hs. rewrite <- Hf, Hq in Hs.
    destruct (accuracy_run_ok_here _ _ _ _ Hok) as (Hd & Hee & Hle).
    rewrite Hd in Hs.
    unfold tick_times in Hn. cbn [List.filter fst] in Hn.
    cbn [steps last_state].
    destruct (ticks a t) eqn:Et.
    + cbn [map length] in Hn. destruct n as [|n]; [discriminate|].
      injection Hn as Hn.
      cbn [accuracy_run_ok] in Hok. cbv zeta in Hok.
      apply andb_true_iff in Hok as [Hok Hrest].
      apply andb_true_iff in Hrest as [Hstep Hrest].
      destruct (accuracy_run_ok_here _ _ _ _ Hrest) as (_ & Hee' & _).
      destruct (IH s' n _ Hst Hs Hrest Hn) as [IH1 IH2].
      split; [|exact IH2]. constructor; [|exact IH1].
      unfold accuracy_tick_ok, accuracy_of. rewrite Hq, Hs, Et.
      now rewrite Hstep, Hee'.
    + destruct (IH s' n q Hst Hs Hok Hn) as [IH1 IH2].
      split; [|exact IH2]. constructor; [|exact IH1].
      unfold accuracy_tick_ok, accuracy_of. rewrite Hq, Hs, Et.
      now rewrite Hle, Hee.
Qed.

(** ** The first session: what it starts from *)

Lemma accuracy_runs_ok_all : forallb accuracy_runs_ok (residues 100) = true.
Proof. vm_compute. reflexivity. Qed.

Lemma accuracy_run_of_file (fileName : js_string) (a : Algorithm.t) :
  In a ANALYSIS_ALGORITHMS ->
  let tg := getAlgorithmAccuracy fileName (Algorithm.baseAccuracy a) in
  accuracy_run_ok (accuracyIncrement tg a) tg (ticks_needed a) 0.76%float = true.
Proof.
  intros Ha. rewrite getAlgorithmAccuracy_residue.
  pose proof (charCodeSum_nonneg fileName) as H0.
  pose proof (Z.mod_pos_bound (charCodeSum fileName) 100) as Hb.
  pose proof (residues_forall 100 _ accuracy_runs_ok_all
                (charCodeSum fileName mod 100) ltac:(lia)) as H.
  unfold accuracy_runs_ok in H. rewrite forallb_forall in H.
  exact (H a Ha).
Qed.

Lemma session_accuracy (nm : js_string) (img : bool) (res : Result.t)
    (target : float -> float) (a : Algorithm.t) :
  In a ANALYSIS_ALGORITHMS ->
  algorithmAccuracy (session_of nm img res target) !! Algorithm.name a
  = Some 0.76%float.
Proof.
  intros Ha.
  repeat (destruct Ha as [<-|Ha]; [destruct img; vm_compute; reflexivity|]).
  contradiction.
Qed.

Lemma session_quiet (nm : js_string) (img : bool) (res : Result.t)
    (target : float -> float) :
  quiet (session_of nm img res target) = true.
Proof. reflexivity. Qed.

Lemma every_50ms_length (n : nat) : length (every_50ms n) = n.
Proof. unfold every_50ms. now rewrite length_map, length_seq. Qed.

(** ** Sessions submitted on an idle component *)

(** What the component does does not depend on the clock nor on the serial
    numbers of timers and URLs: every operation of the event loop commutes
    with [shift]. *)

Section Shift.
Variables d k u : Z.

Lemma ltb_add (x y c : Z) : (x + c <? y + c) = (x <? y).
Proof.
  destruct (Z.ltb_spec x y), (Z.ltb_spec (x + c) (y + c)); try reflexivity; lia.
Qed.

Lemma leb_add (x y c : Z) : (x + c <=? y + c) = (x <=? y).
Proof.
  destruct (Z.leb_spec x y), (Z.leb_spec (x + c) (y + c)); try reflexivity; lia.
Qed.

Lemma eqb_add (x y c : Z) : (x + c =? y + c) = (x =? y).
Proof.
  destruct (Z.eqb_spec x y), (Z.eqb_spec (x + c) (y + c)); try reflexivity; lia.
Qed.

Lemma shift_setInterval (cb : Callback) (delay : Z) (s : AppState) :
  setInterval cb delay (shift d k u s)
  = (fst (setInterval cb delay s) + k, shift d k u (snd (setInterval cb delay s))).
Proof.
  unfold setInterval, shift, shift_timer. cbn. f_equal.
  unfold with_nextId, with_timers. cbn.
  rewrite map_app. cbn. f_equal; [|lia].
  do 2 f_equal. f_equal; lia.
Qed.

Lemma shift_setTimeout (cb : Callback) (delay : Z) (s : AppState) :
  setTimeout cb delay (shift d k u s)
  = (fst (setTimeout cb delay s) + k, shift d k u (snd (setTimeout cb delay s))).
Proof.
  unfold setTimeout, shift, shift_timer. cbn. f_equal.
  unfold with_nextId, with_timers. cbn.
  rewrite map_app. cbn. f_equal; [|lia].
  do 2 f_equal. f_equal; lia.
Qed.

Lemma filter_shift_timer (id : Z) (ts : list Timer) :
  List.filter (fun t => negb (timer_id t =? id + k)) (map (shift_timer d k) ts)
  = map (shift_timer d k) (List.filter (fun t => negb (timer_id t =? id)) ts).
Proof.
  induction ts as [|t r IH]; [reflexivity|].
  cbn [map List.filter shift_timer timer_id]. rewrite IH, eqb_add.
  destruct (timer_id t =? id); reflexivity.
Qed.

Lemma shift_clearTimer (id : Z) (s : AppState) :
  clearTimer (id + k) (shift d k u s) = shift d k u (clearTimer id s).
Proof.
  unfold clearTimer, with_timers, shift. cbn. now rewrite filter_shift_timer.
Qed.

Lemma earlier_shift (a b : Timer) :
  earlier (shift_timer d k a) (shift_timer d k b) = earlier a b.
Proof. unfold earlier, shift_timer. cbn. now rewrite !ltb_add, eqb_add. Qed.

Lemma next_timer_shift (ts : list Timer) :
  next_timer (map (shift_timer d k) ts) = option_map (shift_timer d k) (next_timer ts).
Proof.
  induction ts as [|t r IH]; [reflexivity|].
  cbn [map next_timer]. rewrite IH.
  destruct (next_timer r) as [v|]; cbn [option_map]; [|reflexivity].
  rewrite earlier_shift. destruct (earlier v t); reflexivity.
Qed.

Lemma shift_setProcessingImage_None (s : AppState) :
  setProcessingImage None (shift d k u s) = shift d k u (setProcessingImage None s).
Proof.
  unfold setProcessingImage, with_processingImage, shift, cell_set, shift_url. cbn.
  destruct (rendered (processingImage s)); reflexivity.
Qed.

Lemma shift_setProcessingImage_Some (x : Z) (s : AppState) :
  setProcessingImage (Some (x + u)) (shift d k u s)
  = shift d k u (setProcessingImage (Some x) s).
Proof.
  unfold setProcessingImage, with_processingImage, shift, cell_set, shift_url. cbn.
  do 3 f_equal. unfold same_url.
  destruct (rendered (processingImage s)) as [y|]; cbn [option_map].
  - apply bool_decide_ext. split; intros [= H]; f_equal; lia.
  - reflexivity.
Qed.

Lemma shift_run_callback (self : Z) (cb : Callback) (s : AppState) :
  run_callback (self + k) cb (shift d k u s) = shift d k u (run_callback self cb s).
Proof.
  destruct cb; cbn [run_callback].
  - change (analysisProgress (shift d k u s)) with (analysisProgress s).
    destruct (PrimFloat.leb 100 (analysisProgress s)); [|reflexivity].
    now rewrite shift_clearTimer.
  - reflexivity.
  - change (setIsAnalyzing false (shift d k u s))
      with (shift d k u (setIsAnalyzing false s)).
    apply shift_setProcessingImage_None.
  - cbv zeta.
    change (algorithmProgress (shift d k u s)) with (algorithmProgress s).
    destruct (PrimFloat.leb 100 _); [|reflexivity].
    now rewrite shift_clearTimer.
  - change (setIsAnalyzing false (shift d k u s))
      with (shift d k u (setIsAnalyzing false s)).
    apply shift_setProcessingImage_None.
  - reflexivity.
Qed.

Lemma shift_clear_all (ids : list Z) :
  forall s,
    fold_left (fun s id => clearTimer id s) (map (fun id => id + k) ids) (shift d k u s)
    = shift d k u (fold_left (fun s id => clearTimer id s) ids s).
Proof.
  induction ids as [|id r IH]; intros s; [reflexivity|].
  cbn [map fold_left]. now rewrite shift_clearTimer, IH.
Qed.

Lemma shift_totalDuration (s : AppState) :
  match cur (processingImage (shift d k u s)) with
  | Some _ => 10000
  | None => 15000
  end
  = match cur (processingImage s) with
    | Some _ => 10000
    | None => 15000
    end.
Proof. cbn. destruct (cur (processingImage s)); reflexivity. Qed.

Lemma shift_progress_effect (s : AppState) :
  progress_effect (shift d k u s) = shift d k u (progress_effect s).
Proof.
  unfold progress_effect.
  change (changed (isAnalyzing (shift d k u s))) with (changed (isAnalyzing s)).
  change (changed (processingImage (shift d k u s))) with (changed (processingImage s)).
  destruct (changed (isAnalyzing s) || changed (processingImage s)); [|reflexivity].
  change (cleanup (shift d k u s)) with (map (fun id => id + k) (cleanup s)).
  rewrite shift_clear_all.
  set (s1 := fold_left _ (cleanup s) s).
  change (with_cleanup [] (shift d k u s1)) with (shift d k u (with_cleanup [] s1)).
  set (s2 := with_cleanup [] s1). cbv zeta.
  change (cur (isAnalyzing (shift d k u s2))) with (cur (isAnalyzing s2)).
  destruct (cur (isAnalyzing s2)); [|reflexivity].
  rewrite (shift_totalDuration s2).
  set (total := match cur (processingImage s2) with Some _ => 10000 | None => 15000 end).
  rewrite shift_setInterval.
  destruct (setInterval (ProgressTick total) 50 s2) as [i1 s3]. cbn [fst snd].
  rewrite shift_setInterval.
  destruct (setInterval StepTick 2000 s3) as [i2 s4]. cbn [fst snd].
  rewrite shift_setTimeout.
  destruct (setTimeout AnalysisTimeout total s4) as [i3 s5]. cbn [fst snd].
  reflexivity.
Qed.

Lemma shift_start_algorithm (tg : float) (a : Algorithm.t) (s : AppState) :
  start_algorithm tg a (shift d k u s) = shift d k u (start_algorithm tg a s).
Proof. unfold start_algorithm. cbv zeta. now rewrite shift_setInterval. Qed.

Lemma shift_start_all (tg : float -> float) (l : list Algorithm.t) :
  forall s,
    fold_left (fun s a => start_algorithm (tg (Algorithm.baseAccuracy a)) a s) l
              (shift d k u s)
    = shift d k u
        (fold_left (fun s a => start_algorithm (tg (Algorithm.baseAccuracy a)) a s)
                   l s).
Proof.
  induction l as [|a r IH]; intros s; [reflexivity|].
  cbn [fold_left]. now rewrite shift_start_algorithm, IH.
Qed.

Lemma shift_algorithm_effect (s : AppState) :
  algorithm_effect (shift d k u s) = shift d k u (algorithm_effect s).
Proof.
  unfold algorithm_effect.
  change (changed (isAnalyzing (shift d k u s))) with (changed (isAnalyzing s)).
  change (changed (currentFileName (shift d k u s))) with (changed (currentFileName s)).
  change (cur (isAnalyzing (shift d k u s))) with (cur (isAnalyzing s)).
  change (cur (currentFileName (shift d k u s))) with (cur (currentFileName s)).
  destruct (changed (isAnalyzing s) || changed (currentFileName s)); [|reflexivity].
  destruct (cur (isAnalyzing s) && negb (same_name (cur (currentFileName s)) []));
    [|reflexivity].
  cbv zeta.
  rewrite (shift_start_all (getAlgorithmAccuracy (cur (currentFileName s)))).
  now rewrite shift_setTimeout.
Qed.

Lemma shift_render (s : AppState) :
  render (shift d k u s) = shift d k u (render s).
Proof.
  unfold render. cbv zeta. rewrite shift_progress_effect, shift_algorithm_effect.
  reflexivity.
Qed.

Lemma shift_fire (t : Timer) (s : AppState) :
  fire (shift_timer d k t) (shift d k u s) = shift d k u (fire t s).
Proof.
  unfold fire. cbv zeta.
  change (timer_id (shift_timer d k t)) with (timer_id t + k).
  change (callback (shift_timer d k t)) with (callback t).
  change (period (shift_timer d k t)) with (period t).
  change (due (shift_timer d k t)) with (due t + d).
  change (timers (shift d k u s)) with (map (shift_timer d k) (timers s)).
  rewrite filter_shift_timer.
  set (rest := List.filter _ (timers s)).
  rewrite <- shift_render, <- shift_run_callback. do 2 f_equal.
  unfold with_now, with_timers, shift. cbn. f_equal.
  destruct (period t) as [p|]; [|reflexivity].
  rewrite map_app. cbn. unfold shift_timer. cbn. do 3 f_equal. lia.
Qed.

Lemma shift_next_due (horizon : Z) (s : AppState) :
  next_due (horizon + d) (shift d k u s)
  = option_map (shift_timer d k) (next_due horizon s).
Proof.
  unfold next_due.
  change (timers (shift d k u s)) with (map (shift_timer d k) (timers s)).
  rewrite next_timer_shift.
  destruct (next_timer (timers s)) as [t|]; cbn [option_map]; [|reflexivity].
  change (due (shift_timer d k t)) with (due t + d). rewrite leb_add.
  destruct (due t <=? horizon); reflexivity.
Qed.

(** A run of the shifted component is the shifted run. *)
Lemma shift_elapse (fuel : nat) (horizon : Z) :
  forall s,
    elapse fuel (horizon + d) (shift d k u s)
    = option_map (fun r => (shift_trace d k u (fst r), shift d k u (snd r)))
                 (elapse fuel horizon s).
Proof.
  induction fuel as [|fuel IH]; intros s; cbn [elapse]; rewrite shift_next_due.
  - destruct (next_due horizon s); cbn [option_map]; [reflexivity|].
    cbn [fst snd shift_trace map]. do 2 f_equal.
    unfold with_now, shift. cbn. f_equal. lia.
  - destruct (next_due horizon s) as [t|]; cbn [option_map].
    + rewrite shift_fire, IH.
      destruct (elapse fuel horizon (fire t s)) as [[tr final]|]; reflexivity.
    + cbn [fst snd shift_trace map]. do 2 f_equal.
      unfold with_now, shift. cbn. f_equal. lia.
Qed.

Lemma shift_submitted (nm : js_string) (img : bool) (res : Result.t) (s : AppState) :
  submitted nm img res (shift d k u s) = shift d k u (submitted nm img res s).
Proof.
  unfold submitted. cbv zeta.
  change (setCurrentFileName nm
            (with_completedAlgorithms []
               (with_result None (setIsAnalyzing true (shift d k u s)))))
    with (shift d k u
            (setCurrentFileName nm
               (with_completedAlgorithms []
                  (with_result None (setIsAnalyzing true s))))).
  set (s1 := setCurrentFileName nm _).
  destruct img.
  - change (nextUrl (shift d k u s1)) with (nextUrl s1 + u).
    replace (with_nextUrl (nextUrl s1 + u + 1) (shift d k u s1))
      with (shift d k u (with_nextUrl (nextUrl s1 + 1) s1))
      by (unfold with_nextUrl, shift; cbn; f_equal; lia).
    now rewrite shift_setProcessingImage_Some, shift_setTimeout.
  - now rewrite shift_setProcessingImage_None, shift_setTimeout.
Qed.

Lemma shift_analyzeFile (file : File.t) (s : AppState) :
  analyzeFile file (shift d k u s) = shift d k u (analyzeFile file s).
Proof. now rewrite !analyzeFile_submitted, shift_submitted, shift_render. Qed.

(** Reading a shifted run. *)

Lemma steps_shift (tr : list (Timer * AppState)) :
  forall s,
    steps (shift d k u s) (shift_trace d k u tr)
    = map (shift_step d k u) (steps s tr).
Proof.
  induction tr as [|[t s'] r IH]; intros s; [reflexivity|].
  cbn [shift_trace map steps fst snd shift_step]. f_equal. apply IH.
Qed.

Lemma forallb_map {A B} (p : B -> bool) (g : A -> B) (l : list A) :
  forallb p (map g l) = forallb (fun x => p (g x)) l.
Proof. induction l as [|x r IH]; cbn [map forallb]; [|rewrite IH]; reflexivity. Qed.

Lemma forallb_pointwise {A} (p q : A -> bool) (l : list A) :
  (forall x, p x = q x) -> forallb p l = forallb q l.
Proof.
  intros H. induction l as [|x r IH]; cbn [forallb]; [|rewrite H, IH]; reflexivity.
Qed.

Lemma forallb_steps_shift (p q : AppState * Timer * AppState -> bool)
    (s : AppState) (tr : list (Timer * AppState)) :
  (forall st, p (shift_step d k u st) = q st) ->
  forallb p (steps (shift d k u s) (shift_trace d k u tr)) = forallb q (steps s tr).
Proof.
  intros H. rewrite steps_shift, forallb_map. apply forallb_pointwise. intros st. apply H.
Qed.

Lemma no_timeout_shift (tr : list (Timer * AppState)) :
  forallb (fun x => negb (ends_analysis (fst x))) (shift_trace d k u tr)
  = forallb (fun x => negb (ends_analysis (fst x))) tr.
Proof. unfold shift_trace. rewrite forallb_map. reflexivity. Qed.

Lemma tick_times_shift (a : Algorithm.t) (tr : list (Timer * AppState)) :
  tick_times a (shift_trace d k u tr) = map (fun x => x + d) (tick_times a tr).
Proof.
  unfold tick_times.
  induction tr as [|[t s] r IH]; [reflexivity|].
  cbn [shift_trace map List.filter fst].
  change (ticks a (shift_timer d k t)) with (ticks a t).
  destruct (ticks a t); cbn [map fst]; [f_equal|]; exact IH.
Qed.

Lemma map_add_inj (l1 l2 : list Z) :
  map (fun x => x + d) l1 = map (fun x => x + d) l2 -> l1 = l2.
Proof.
  revert l2. induction l1 as [|x r IH]; intros [|y r']; cbn [map];
    try discriminate; [reflexivity|].
  intros [= H1 H2]. f_equal; [lia|now apply IH].
Qed.

Lemma tick_times_since (a : Algorithm.t) (tr : list (Timer * AppState))
    (start : Z) (l : list Z) :
  tick_times a (shift_trace d k u tr) = map (Z.add (start + d)) l
  <-> tick_times a tr = map (Z.add start) l.
Proof.
  rewrite tick_times_shift.
  replace (map (Z.add (start + d)) l)
    with (map (fun x => x + d) (map (Z.add start) l))
    by (rewrite map_map; apply map_ext; intros x; lia).
  split; [apply map_add_inj | now intros ->].
Qed.

Lemma stopped_shift (a : Algorithm.t) (s : AppState) :
  stopped a (shift d k u s) = stopped a s.
Proof. unfold stopped. cbn [shift timers]. now rewrite forallb_map. Qed.

Lemma progress_tick_ok_shift (start : Z) (a : Algorithm.t)
    (st : AppState * Timer * AppState) :
  progress_tick_ok (start + d) a (shift_step d k u st) = progress_tick_ok start a st.
Proof.
  destruct st as [[s t] s']. unfold progress_tick_ok, shift_step.
  change (due (shift_timer d k t)) with (due t + d).
  now replace (due t + d - (start + d)) with (due t - start) by lia.
Qed.

Lemma progress_run_ok_shift (s : AppState) (tr : list (Timer * AppState))
    (final : AppState) :
  progress_run_ok (shift d k u s) (shift_trace d k u tr) (shift d k u final)
  = progress_run_ok s tr final.
Proof.
  unfold progress_run_ok. rewrite no_timeout_shift. f_equal.
  apply forallb_pointwise. intros a. cbv zeta.
  change (now (shift d k u s)) with (now s + d).
  rewrite (forallb_steps_shift _ (progress_tick_ok (now s) a))
    by apply progress_tick_ok_shift.
  rewrite stopped_shift.
  rewrite (bool_decide_ext _ _ (tick_times_since a tr (now s) _)).
  reflexivity.
Qed.

Lemma completion_run_ok_shift (s : AppState) (tr : list (Timer * AppState))
    (final : AppState) :
  completion_run_ok (shift d k u s) (shift_trace d k u tr) (shift d k u final)
  = completion_run_ok s tr final.
Proof.
  unfold completion_run_ok. rewrite no_timeout_shift.
  rewrite (forallb_steps_shift _
             (fun st => completion_ok st && pinned_ok st && completed_ok (snd st)))
    by (intros [[s1 t] s2]; reflexivity).
  reflexivity.
Qed.

Lemma reveal_ok_shift (start : Z) (st : AppState * Timer * AppState) :
  reveal_ok (start + d) (shift_step d k u st) = reveal_ok start st.
Proof.
  destruct st as [[s t] s']. unfold reveal_ok, shift_step.
  change (callback (shift_timer d k t)) with (callback t).
  change (due (shift_timer d k t)) with (due t + d).
  change (result (shift d k u s')) with (result s').
  replace (start + d + 9000) with (start + 9000 + d) by lia.
  replace (start + d
           + (Math_max_of (map Algorithm.duration ANALYSIS_ALGORITHMS) + 1000))
    with (start + (Math_max_of (map Algorithm.duration ANALYSIS_ALGORITHMS) + 1000)
          + d) by lia.
  rewrite eqb_add, leb_add. reflexivity.
Qed.

Lemma last_shift_trace (tr : list (Timer * AppState)) :
  last (shift_trace d k u tr)
  = option_map (fun x => (shift_timer d k (fst x), shift d k u (snd x))) (last tr).
Proof. unfold shift_trace. apply fmap_last. Qed.

Lemma reveal_run_ok_shift (s : AppState) (tr : list (Timer * AppState))
    (final : AppState) :
  reveal_run_ok (shift d k u s) (shift_trace d k u tr) (shift d k u final)
  = reveal_run_ok s tr final.
Proof.
  unfold reveal_run_ok.
  change (now (shift d k u s)) with (now s + d).
  change (now (shift d k u final)) with (now final + d).
  rewrite (forallb_steps_shift _ (reveal_ok (now s))) by apply reveal_ok_shift.
  rewrite last_shift_trace.
  replace (now s + d + 9000) with (now s + 9000 + d) by lia. rewrite eqb_add.
  assert (Ht : bool_decide (timers (shift d k u final) = [])
               = bool_decide (timers final = [])).
  { apply bool_decide_ext. cbn [shift timers].
    destruct (timers final); cbn [map]; split; intros H; try discriminate H;
      reflexivity. }
  rewrite Ht.
  destruct (last tr) as [[t s']|]; reflexivity.
Qed.

End Shift.

Lemma idle_mounted : idle mounted.
Proof. repeat split. Qed.

(** An idle component is the mounted one, later, up to the result it shows
    and the name of the last file. *)
Lemma idle_shift (s : AppState) :
  idle s ->
  s = shift (now s) (nextId s) (nextUrl s)
        (with_result (result s) (with_currentFileName (currentFileName s) mounted)).
Proof.
  intros (H1 & H2 & H3 & H4 & H5 & H6 & H7 & H8 & H9).
  destruct s. cbn in *. subst. reflexivity.
Qed.

(** [analyzeFile] overwrites the result and the file name. *)
Lemma analyzeFile_base (file : File.t) (r : option Result.t) (cf : cell js_string) :
  File.name file <> [] ->
  analyzeFile file (with_result r (with_currentFileName cf mounted))
  = analyzeFile file mounted.
Proof.
  intros Hn. rewrite (first_session file Hn), analyzeFile_submitted.
  generalize (generateConsistentResult file) as res. intros res.
  generalize (mediaIsImage file) as img. intros img.
  destruct file as [[|c n] size type]; [contradiction|]. cbn [File.name].
  unfold session_of, render.
  rewrite (algorithm_effect_starts _ (c :: n)).
  - generalize (getAlgorithmAccuracy (c :: n)) as target. intros target.
    destruct img; vm_compute; reflexivity.
  - destruct img; vm_compute; reflexivity.
  - destruct img; vm_compute; reflexivity.
  - destruct img; vm_compute; reflexivity.
  - discriminate.
Qed.

(** The session of a file submitted on an idle component is the first
    session after mounting, shifted to the time of the submission. *)
Lemma session_from_idle (s0 : AppState) (file : File.t) :
  idle s0 -> File.name file <> [] ->
  analyzeFile file s0
  = shift (now s0) (nextId s0) (nextUrl s0)
      (session_of (File.name file) (mediaIsImage file)
         (generateConsistentResult file) (getAlgorithmAccuracy (File.name file))).
Proof.
  intros Hi Hn. rewrite (idle_shift s0 Hi) at 1.
  now rewrite shift_analyzeFile, analyzeFile_base, first_session.
Qed.

Lemma session_now (nm : js_string) (img : bool) (res : Result.t)
    (target : float -> float) :
  now (session_of nm img res target) = 0.
Proof. destruct img; reflexivity. Qed.

(** A property of runs that does not look at the accuracies nor at the
    clock, checked on a session of each category, holds of the session of
    every file with a non-empty name submitted on an idle component. *)
Lemma idle_session
    (P : AppState -> list (Timer * AppState) -> AppState -> bool)
    (horizon : Z) :
  (forall c n res target img,
      session_check P horizon (c :: n) res target img = true) ->
  (forall d k u s tr final,
      P (shift d k u s) (shift_trace d k u tr) (shift d k u final) = P s tr final) ->
  forall (s0 : AppState) (file : File.t),
    idle s0 -> File.name file <> [] ->
    exists tr final,
      elapse 2000 (now s0 + horizon) (analyzeFile file s0) = Some (tr, final)
      /\ P (analyzeFile file s0) tr final = true
      /\ exists tr0 final0,
           elapse 2000 horizon (analyzeFile file mounted) = Some (tr0, final0)
           /\ final = shift (now s0) (nextId s0) (nextUrl s0) final0.
Proof.
  intros Hall Hinv s0 file Hi Hn.
  destruct (session_property P horizon Hall file Hn) as (tr0 & final0 & Hrun & Hok).
  exists (shift_trace (now s0) (nextId s0) (nextUrl s0) tr0),
    (shift (now s0) (nextId s0) (nextUrl s0) final0).
  rewrite (session_from_idle s0 file Hi Hn).
  rewrite (first_session file Hn) in Hrun, Hok.
  split.
  { rewrite (Z.add_comm (now s0) horizon).
    rewrite (shift_elapse (now s0) (nextId s0) (nextUrl s0) 2000 horizon).
    rewrite Hrun. reflexivity. }
  split; [rewrite Hinv; exact Hok|].
  exists tr0, final0. rewrite (first_session file Hn). split; [exact Hrun|reflexivity].
Qed.

(** What a session submitted on an idle component starts from. *)
Lemma idle_start (s0 : AppState) (file : File.t) :
  idle s0 -> File.name file <> [] ->
  let s1 := analyzeFile file s0 in
  now s1 = now s0
  /\ quiet s1 = true
  /\ Forall (fun t => registered (getAlgorithmAccuracy (File.name file)) (callback t))
            (timers s1)
  /\ forall a, In a ANALYSIS_ALGORITHMS ->
               algorithmAccuracy s1 !! Algorithm.name a = Some 0.76%float.
Proof.
  intros Hi Hn. cbv zeta. rewrite (session_from_idle s0 file Hi Hn).
  set (m := session_of _ _ _ _).
  generalize (nextUrl s0) as u. generalize (nextId s0) as k. intros k u.
  assert (Hm : now m = 0) by apply session_now.
  assert (Hq : quiet m = true) by apply session_quiet.
  assert (Hreg : Forall (fun t => registered (getAlgorithmAccuracy (File.name file))
                                             (callback t)) (timers m))
    by apply session_registered.
  assert (Hacc : forall a, In a ANALYSIS_ALGORITHMS ->
                           algorithmAccuracy m !! Algorithm.name a = Some 0.76%float)
    by (intros a Ha; now apply session_accuracy).
  clearbody m.
  split; [cbn [shift now]; now rewrite Hm|].
  split; [exact Hq|].
  split; [|exact Hacc].
  cbn [shift timers]. apply Forall_forall. intros t Ht.
  apply list_elem_of_In, in_map_iff in Ht as (t0 & <- & Ht0).
  rewrite Forall_forall in Hreg. apply (Hreg t0). now apply list_elem_of_In.
Qed.

(** ** C6: the run of each algorithm *)

Lemma progress_run_ok_all (c : N) (n : js_string) (res : Result.t)
    (target : float -> float) (img : bool) :
  session_check progress_run_ok 8999 (c :: n) res target img = true.
Proof. destruct img; vm_compute; reflexivity. Qed.

Lemma progress_run_ok_elim (s1 : AppState) (tr : list (Timer * AppState))
    (final : AppState) :
  progress_run_ok s1 tr final = true ->
  forallb (fun x => negb (ends_analysis (fst x))) tr = true
  /\ forall a, In a ANALYSIS_ALGORITHMS ->
       PrimFloat.eqb (progress_of s1 (Algorithm.name a)) 0%float = true
       /\ Forall (fun st => progress_tick_ok (now s1) a st = true) (steps s1 tr)
       /\ tick_times a tr = map (Z.add (now s1)) (every_50ms (ticks_needed a))
       /\ 50 * Z.of_nat (ticks_needed a) < 9000
       /\ stopped a final = true
       /\ PrimFloat.eqb (progress_of final (Algorithm.name a)) 100%float = true.
Proof.
  unfold progress_run_ok. intros Hok.
  apply andb_true_iff in Hok as [Hne Hok]. split; [exact Hne|].
  rewrite forallb_forall in Hok. intros a Ha.
  specialize (Hok a Ha). cbv zeta in Hok.
  apply andb_true_iff in Hok as [Hok H100].
  apply andb_true_iff in Hok as [Hok Hstop].
  apply andb_true_iff in Hok as [Hok Hlt].
  apply andb_true_iff in Hok as [Hok Htimes].
  apply andb_true_iff in Hok as [H0 Hsteps].
  apply bool_decide_eq_true_1 in Htimes. apply forallb_Forall in Hsteps.
  repeat split; try assumption. lia.
Qed.

(** An empty name stops the roster from starting: no algorithm ever ticks. *)
Lemma unnamed_progress :
  option_map (fun x => (cur (isAnalyzing (snd x)), progresses (snd x)))
             (elapse 2000 (now mounted + 8999) (analyzeFile unnamed_document mounted))
  = Some (true, [0; 0; 0; 0; 0]%float).
Proof. vm_compute. reflexivity. Qed.

(** C6 as stated fails: for a document with an empty name, submitted on the
    mounted component and left alone, no algorithm ticks; 8999 ms after the
    submission, and still one millisecond before the overall timer ends the
    analysis at 15000 ms, every progress is 0, not 100. *)
Lemma C6_counterexample :
  idle mounted
  /\ ~ (exists tr final, algorithms_reach_target mounted unnamed_document tr final)
  /\ option_map (fun s => (cur (isAnalyzing s), progresses s))
                (state_at 2000 14999 (analyzeFile unnamed_document mounted))
     = Some (true, [0; 0; 0; 0; 0]%float).
Proof.
  split; [exact idle_mounted|]. split; [|vm_compute; reflexivity].
  intros (tr & final & Hrun & Hall).
  pose proof unnamed_progress as E. cbv zeta in Hrun. rewrite Hrun in E.
  cbn [option_map snd] in E. injection E as _ E _ _ _ _.
  unfold ANALYSIS_ALGORITHMS in Hall. apply List.Forall_inv in Hall.
  cbv zeta in Hall. destruct Hall as (_ & _ & _ & _ & _ & _ & _ & H100 & _).
  cbn [Algorithm.name] in H100. rewrite E in H100. discriminate H100.
Qed.

(** C6, amended. For a file with a non-empty name submitted on an idle
    component, in the session left alone until just before the reveal, for
    every roster algorithm: progress starts at 0 and accuracy at 0.76; the
    algorithm's interval fires 50, 100, ... ms after the submission, each
    tick setting the progress to [min (progress + 100 * 50 / duration, 100)]
    and the accuracy to [min (accuracy + (target - 0.76) * 50 / duration,
    target)], no other task touching them; neither ever decreases; the
    interval has stopped before 9000 ms have passed with the progress equal
    to 100 and the accuracy within 1e-6 of the target accuracy. *)
Theorem C6_progress_and_accuracy_run (s0 : AppState) (file : File.t) :
  idle s0 -> File.name file <> [] ->
  exists tr final, algorithms_reach_target s0 file tr final.
Proof.
  intros Hi Hn.
  destruct (idle_session progress_run_ok 8999 progress_run_ok_all
              progress_run_ok_shift s0 file Hi Hn)
    as (tr & final & Hrun & Hok & _).
  destruct (idle_start s0 file Hi Hn) as (Hnow & Hq & Hregd & Hacc0).
  exists tr, final. unfold algorithms_reach_target. cbv zeta.
  split; [exact Hrun|].
  set (target := getAlgorithmAccuracy (File.name file)) in *.
  set (s1 := analyzeFile file s0) in *.
  apply progress_run_ok_elim in Hok as [Hne Hok]. rewrite Hnow in Hok.
  pose proof (elapse_steps _ _ _ _ _ Hrun) as Hst.
  pose proof (run_registered target (now s0 + 8999) tr s1 Hq Hregd Hst Hne) as Hreg.
  pose proof (elapse_final _ _ _ _ _ Hrun) as Hfin.
  apply Forall_forall. intros a Ha. apply list_elem_of_In in Ha.
  destruct (Hok a Ha) as (H0 & Hsteps & Htimes & Hlt & Hstop & H100).
  assert (Hlen : length (tick_times a tr) = ticks_needed a)
    by (rewrite Htimes, length_map; apply every_50ms_length).
  destruct (accuracy_along target a Ha tr s1 (ticks_needed a) 0.76%float Hreg
              (Hacc0 a Ha)
              (accuracy_run_of_file (File.name file) a Ha) Hlen) as [Hacc Htol].
  assert (Hfa : accuracy_of final (Algorithm.name a)
                = accuracy_of (last_state s1 tr) (Algorithm.name a))
    by (rewrite Hfin; reflexivity).
  repeat split; try assumption.
  - unfold accuracy_of. now rewrite (Hacc0 a Ha).
  - now rewrite Hfa.
Qed.

Lemma C6_witness :
  exists tr final,
    algorithms_reach_target mounted
      (File.mk (utf16 "report.pdf") 1234 "application/pdf") tr final.
Proof.
  apply (C6_progress_and_accuracy_run mounted
           (File.mk (utf16 "report.pdf") 1234 "application/pdf")).
  - repeat split.
  - discriminate.
Defined.

(** ** C7: the completion list *)

Lemma completion_run_ok_all (c : N) (n : js_string) (res : Result.t)
    (target : float -> float) (img : bool) :
  session_check completion_run_ok 8999 (c :: n) res target img = true.
Proof. destruct img; vm_compute; reflexivity. Qed.

Lemma completion_run_ok_elim (s1 : AppState) (tr : list (Timer * AppState))
    (final : AppState) :
  completion_run_ok s1 tr final = true ->
  forallb (fun x => negb (ends_analysis (fst x))) tr = true
  /\ completedAlgorithms s1 = []
  /\ Forall (fun st => completion_ok st = true /\ pinned_ok st = true
                       /\ completed_ok (snd st) = true) (steps s1 tr)
  /\ completedAlgorithms final ≡ₚ map Algorithm.name ANALYSIS_ALGORITHMS.
Proof.
  unfold completion_run_ok. intros Hok.
  apply andb_true_iff in Hok as [Hok Hperm].
  apply andb_true_iff in Hok as [Hok Hsteps].
  apply andb_true_iff in Hok as [Hne Hempty].
  apply bool_decide_eq_true_1 in Hperm, Hempty.
  apply forallb_Forall in Hsteps.
  repeat split; try assumption.
  eapply Forall_impl; [exact Hsteps|]. cbv beta. intros st H.
  apply andb_true_iff in H as [H ?]. apply andb_true_iff in H as [? ?]. tauto.
Qed.

Lemma unnamed_completion :
  option_map (fun x => completedAlgorithms (snd x))
             (elapse 2000 (now mounted + 8999) (analyzeFile unnamed_document mounted))
  = Some [].
Proof. vm_compute. reflexivity. Qed.

(** C7 as stated fails: for a document with an empty name, submitted on the
    mounted component and left alone, the completion list is empty 8999 ms
    after the submission, and still one millisecond before the overall timer
    ends the analysis at 15000 ms; it never holds the five names. *)
Lemma C7_counterexample :
  idle mounted
  /\ ~ (exists tr final, completion_list_in_order mounted unnamed_document tr final)
  /\ option_map (fun s => (cur (isAnalyzing s), completedAlgorithms s))
                (state_at 2000 14999 (analyzeFile unnamed_document mounted))
     = Some (true, []).
Proof.
  split; [exact idle_mounted|]. split; [|vm_compute; reflexivity].
  intros (tr & final & Hrun & _ & _ & _ & _ & _ & Hperm).
  pose proof unnamed_completion as E. cbv zeta in Hrun. rewrite Hrun in E.
  cbn [option_map snd] in E. injection E as E. rewrite E in Hperm.
  apply Permutation_length in Hperm. discriminate Hperm.
Qed.

(** C7, amended. For a file with a non-empty name submitted on an idle
    component, in the session left alone until just before the reveal: the
    completion list starts empty; a task either leaves it alone or appends
    one name, and it appends the name of an algorithm exactly when that
    algorithm's tick takes its progress from below 100 to 100; after every
    task the list has no duplicate and holds exactly the algorithms whose
    progress is 100; a completed algorithm stays completed, is not ticked
    again, keeps its progress of 100 and its accuracy entry; at the end the
    list holds each of the five names once. *)
Theorem C7_completion_order (s0 : AppState) (file : File.t) :
  idle s0 -> File.name file <> [] ->
  exists tr final, completion_list_in_order s0 file tr final.
Proof.
  intros Hi Hn.
  destruct (idle_session completion_run_ok 8999 completion_run_ok_all
              completion_run_ok_shift s0 file Hi Hn)
    as (tr & final & Hrun & Hok & _).
  destruct (idle_start s0 file Hi Hn) as (Hnow & Hq & Hregd & Hacc0).
  exists tr, final. unfold completion_list_in_order. cbv zeta.
  split; [exact Hrun|].
  set (target := getAlgorithmAccuracy (File.name file)) in *.
  set (s1 := analyzeFile file s0) in *.
  apply completion_run_ok_elim in Hok as (Hne & Hempty & H3 & Hperm).
  pose proof (elapse_steps _ _ _ _ _ Hrun) as Hst.
  pose proof (run_registered target (now s0 + 8999) tr s1 Hq Hregd Hst Hne) as Hreg.
  split; [exact Hempty|].
  split; [eapply Forall_impl; [exact H3|]; cbv beta; tauto|].
  split; [eapply Forall_impl; [exact H3|]; cbv beta; tauto|].
  split; [eapply Forall_impl; [exact H3|]; cbv beta; tauto|].
  split; [|exact Hperm].
  apply Forall_forall. intros [[s t] s'] Hin.
  rewrite Forall_forall in H3, Hreg.
  destruct (H3 _ Hin) as (_ & Hpin & _).
  destruct (Hreg _ Hin) as (Hqs & He & Hr & ->).
  intros a Ha Hdone.
  pose proof (step_accuracy target a s t Ha Hqs He Hr) as Hs. cbv zeta in Hs.
  unfold pinned_ok in Hpin. rewrite forallb_forall in Hpin.
  specialize (Hpin a Ha). cbv zeta in Hpin.
  rewrite (bool_decide_eq_true_2 _ Hdone) in Hpin.
  apply andb_true_iff in Hpin as [Hpin _].
  apply andb_true_iff in Hpin as [_ Ht]. apply negb_true_iff in Ht.
  now rewrite Ht in Hs.
Qed.

Lemma C7_witness :
  exists tr final,
    completion_list_in_order mounted (File.mk (utf16 "scan.png") 92 "image/png")
      tr final.
Proof.
  apply (C7_completion_order mounted (File.mk (utf16 "scan.png") 92 "image/png")).
  - repeat split.
  - discriminate.
Defined.

(** ** C5: the reveal *)

Lemma reveal_run_ok_all (c : N) (n : js_string) (res : Result.t)
    (target : float -> float) (img : bool) :
  session_check reveal_run_ok 9000 (c :: n) res target img = true.
Proof. destruct img; vm_compute; reflexivity. Qed.

(** The state the first session leaves after 9000 ms. *)
Lemma first_session_ends (c : N) (n : js_string) (res : Result.t)
    (target : float -> float) (img : bool) :
  option_map snd (elapse 2000 9000 (session_of (c :: n) img res target))
  = Some (after_first_session (c :: n) img res).
Proof. destruct img; vm_compute; reflexivity. Qed.

Lemma first_session_end_state (file : File.t) (tr : list (Timer * AppState))
    (final : AppState) :
  File.name file <> [] ->
  elapse 2000 9000 (analyzeFile file mounted) = Some (tr, final) ->
  final = after_first_session (File.name file) (mediaIsImage file)
            (generateConsistentResult file).
Proof.
  intros Hn Hrun. rewrite (first_session file Hn) in Hrun.
  destruct (File.name file) as [|c n] eqn:En; [contradiction|].
  pose proof (first_session_ends c n (generateConsistentResult file)
                (getAlgorithmAccuracy (c :: n)) (mediaIsImage file)) as H.
  rewrite Hrun in H. cbn [option_map snd] in H. now injection H.
Qed.

Lemma session_end_of_file (file : File.t) (tr : list (Timer * AppState))
    (final : AppState) :
  File.name file <> [] ->
  elapse 2000 9000 (analyzeFile file mounted) = Some (tr, final) ->
  result final = Some (generateConsistentResult file) /\ idle final.
Proof.
  intros Hn Hrun. rewrite (first_session_end_state file tr final Hn Hrun).
  split; [reflexivity|]. repeat split.
Qed.

Lemma idle_shifted (d k u : Z) (s : AppState) : idle s -> idle (shift d k u s).
Proof.
  intros (H1 & H2 & H3 & H4 & H5 & H6 & H7 & H8 & H9).
  unfold idle. cbn [shift isAnalyzing processingImage analysisStep analysisProgress
                    algorithmProgress algorithmAccuracy completedAlgorithms cleanup
                    timers].
  rewrite H2, H8, H9. repeat split; assumption.
Qed.

Lemma last_step (s0 : AppState) (tr : list (Timer * AppState))
    (t : Timer) (s : AppState) :
  last tr = Some (t, s) -> exists s1, (s1, t, s) ∈ steps s0 tr.
Proof.
  revert s0. induction tr as [|[t' s'] r IH]; intros s0; [discriminate|].
  destruct r as [|x r].
  - intros [= -> ->]. exists s0. cbn. left.
  - intros El. destruct (IH s' El) as [s1 H].
    exists s1. cbn [steps]. right. exact H.
Qed.

Lemma reveal_run_ok_elim (s1 : AppState) (tr : list (Timer * AppState))
    (final : AppState) :
  reveal_run_ok s1 tr final = true ->
  cur (isAnalyzing s1) = true
  /\ revealed s1 = false
  /\ Forall (fun st => reveal_ok (now s1) st = true) (steps s1 tr)
  /\ (exists t s, last tr = Some (t, s) /\ callback t = RosterTimeout)
  /\ cur (isAnalyzing final) = false
  /\ timers final = []
  /\ now final = now s1 + 9000.
Proof.
  unfold reveal_run_ok. intros Hok.
  apply andb_true_iff in Hok as [Hok Hnow].
  apply andb_true_iff in Hok as [Hok Htimers].
  apply andb_true_iff in Hok as [Hok Hfin].
  apply andb_true_iff in Hok as [Hok Hlast].
  apply andb_true_iff in Hok as [Hok Hsteps].
  apply andb_true_iff in Hok as [Hcur Hnrev].
  apply negb_true_iff in Hnrev, Hfin.
  apply bool_decide_eq_true_1 in Htimers.
  apply forallb_Forall in Hsteps.
  repeat split; try assumption; [|lia].
  destruct (last tr) as [[t s]|]; [|discriminate].
  exists t, s. split; [reflexivity|].
  unfold is_roster_timeout in Hlast.
  destruct (callback t); try discriminate. reflexivity.
Qed.

Lemma unnamed_at_9000 :
  option_map (fun x => cur (isAnalyzing (snd x)))
             (elapse 2000 (now mounted + 9000) (analyzeFile unnamed_document mounted))
  = Some true.
Proof. vm_compute. reflexivity. Qed.

(** C5 as stated fails: for a document with an empty name, submitted on the
    mounted component and left alone, the roster timer does not exist.
    After 9000 ms the result is stored but the analysis is still running and
    nothing is revealed; the reveal comes at 15000 ms, and the task that
    brings it is the overall timer. *)
Lemma C5_counterexample :
  idle mounted
  /\ ~ (exists tr final, roster_timer_reveals mounted unnamed_document tr final)
  /\ option_map (fun s => (cur (isAnalyzing s), revealed s,
                           bool_decide (result s = None)))
                (state_at 2000 9000 (analyzeFile unnamed_document mounted))
     = Some (true, false, false)
  /\ option_map (fun x => (option_map (fun y => (callback (fst y), due (fst y)))
                                      (last (fst x)),
                           revealed (snd x)))
                (elapse 2000 15000 (analyzeFile unnamed_document mounted))
     = Some (Some (AnalysisTimeout, 15000), true).
Proof.
  split; [exact idle_mounted|].
  split; [|split; vm_compute; reflexivity].
  intros (tr & final & Hrun & _ & _ & _ & _ & _ & Hfin & _).
  pose proof unnamed_at_9000 as E. cbv zeta in Hrun. rewrite Hrun in E.
  cbn [option_map snd] in E. injection E as E. congruence.
Qed.

(** C5, amended. For a file with a non-empty name submitted on an idle
    component, in the session left alone: the analysis is running and nothing
    is revealed after every task until the roster timer fires; that timer
    fires 9000 ms after the submission, which is the longest roster duration
    plus 1000 ms, and is the last task; the overall timer of 10 s or 15 s
    never fires.  After it [isAnalyzing] is false, the stored result is the
    one computed at submission, it is revealed and no timer is pending; the
    component is idle again. *)
Theorem C5_reveal_at_roster_timeout (s0 : AppState) (file : File.t) :
  idle s0 -> File.name file <> [] ->
  exists tr final, roster_timer_reveals s0 file tr final /\ idle final.
Proof.
  intros Hi Hn.
  destruct (idle_session reveal_run_ok 9000 reveal_run_ok_all
              reveal_run_ok_shift s0 file Hi Hn)
    as (tr & final & Hrun & Hok & tr0 & final0 & Hrun0 & Efinal).
  destruct (idle_start s0 file Hi Hn) as (Hnow & _).
  destruct (session_end_of_file file tr0 final0 Hn Hrun0) as [Hres0 Hidle0].
  assert (Hres : result final = Some (generateConsistentResult file))
    by (rewrite Efinal; exact Hres0).
  assert (Hidle : idle final) by (rewrite Efinal; now apply idle_shifted).
  exists tr, final. split; [|exact Hidle].
  unfold roster_timer_reveals. cbv zeta.
  set (s1 := analyzeFile file s0) in *.
  apply reveal_run_ok_elim in Hok
    as (Hcur & Hnrev & Hsteps & (t & s & El & Ecb) & Hfin & Htimers & Hend).
  rewrite Hnow in Hsteps, Hend.
  split; [exact Hrun|].
  split; [exact Hcur|]. split; [exact Hnrev|]. split; [exact Hsteps|].
  split.
  { exists t, s. split; [exact El|]. split; [exact Ecb|].
    destruct (last_step s1 tr t s El) as [s2 Hin].
    rewrite Forall_forall in Hsteps. apply Hsteps in Hin.
    unfold reveal_ok in Hin. rewrite Ecb in Hin.
    repeat (apply andb_true_iff in Hin as [Hin _]).
    apply Z.eqb_eq in Hin. rewrite Hin. reflexivity. }
  split; [reflexivity|]. split; [exact Hfin|]. split; [exact Hres|].
  split; [unfold revealed; now rewrite Hres, Hfin|].
  split; [exact Htimers|exact Hend].
Qed.

Lemma C5_witness :
  exists tr final,
    roster_timer_reveals mounted (File.mk (utf16 "scan.png") 92 "image/png")
      tr final
    /\ idle final.
Proof.
  apply (C5_reveal_at_roster_timeout mounted
           (File.mk (utf16 "scan.png") 92 "image/png")).
  - repeat split.
  - discriminate.
Defined.

(** ** C4: a second submission while the first session runs *)

(** C4 fails on the code.  The algorithm effect returns no cleanup, so a
    second submission 1000 ms into a session leaves the five intervals and
    the roster timer of the first session pending.  Right after it the
    progress values are those of the first session, not 0, and ten algorithm
    intervals are pending; 50 ms later every progress has moved by two
    increments; the first algorithm to finish is appended to the completion
    list twice; and 8000 ms after the second submission the roster timer of
    the first session ends the analysis with the result of the first file. *)
Theorem C4_stale_timers_reach_the_new_session :
  option_map progresses resubmitted
  = Some [12.5; 20; 16.666666666666671; 14.285714285714279; 25]%float
  /\ option_map (fun s => length (List.filter is_algorithm_tick (timers s)))
                resubmitted
     = Some 10%nat
  /\ option_map progresses (resubmitted ≫= state_at 2000 1050)
     = Some [13.75; 22; 18.333333333333336; 15.714285714285706; 27.5]%float
  /\ option_map completedAlgorithms (resubmitted ≫= state_at 2000 2600)
     = Some ["Feature Extraction Pipeline"; "Feature Extraction Pipeline"]
  /\ option_map (fun s => (now s, cur (isAnalyzing s), result s))
                (resubmitted ≫= state_at 4000 9000)
     = Some (9000, false, Some (generateConsistentResult first_file)).
Proof.
  split; [vm_compute; reflexivity|].
  split; [vm_compute; reflexivity|].
  split; [vm_compute; reflexivity|].
  split; [vm_compute; reflexivity|].
  vm_compute; reflexivity.
Qed.

(** * Further properties of the result generator *)

(** ** The result repeats with period 300 in the fingerprint *)

Lemma rem_period (h k x m : Z) :
  0 <= h -> 0 <= k -> 0 <= x -> 0 < m -> 300 mod m = 0 ->
  Z.rem (h + 300 * k + x) m = Z.rem (h + x) m.
Proof.
  intros Hh Hk Hx Hm Hd.
  rewrite !rem_is_mod by nia.
  replace (h + 300 * k + x) with (h + x + k * 300) by lia.
  rewrite (Z.add_mod (h + x) (k * 300) m) by lia.
  rewrite (Z.mul_mod k 300 m), Hd, Z.mul_0_r by lia.
  rewrite Z.mod_0_l, Z.add_0_r, Z.mod_mod by lia.
  reflexivity.
Qed.

Lemma rem_period0 (h k m : Z) :
  0 <= h -> 0 <= k -> 0 < m -> 300 mod m = 0 ->
  Z.rem (h + 300 * k) m = Z.rem h m.
Proof.
  intros Hh Hk Hm Hd.
  pose proof (rem_period h k 0 m Hh Hk ltac:(lia) Hm Hd) as H.
  now rewrite !Z.add_0_r in H.
Qed.

Lemma rem_period_scaled (h k j : Z) :
  0 <= h -> 0 <= k -> 0 <= j ->
  Z.rem ((h + 300 * k) * (j + 1)) 100 = Z.rem (h * (j + 1)) 100.
Proof.
  intros Hh Hk Hj.
  rewrite !rem_is_mod by nia.
  replace ((h + 300 * k) * (j + 1)) with (h * (j + 1) + (3 * k * (j + 1)) * 100)
    by lia.
  now rewrite Z_mod_plus_full.
Qed.

Lemma filter_index_period {A} (h k m : Z) (xs : list A) :
  0 <= h -> 0 <= k -> 0 < m -> 300 mod m = 0 ->
  filter_index (fun index => Z.rem (h + 300 * k + index) m =? 0) xs
  = filter_index (fun index => Z.rem (h + index) m =? 0) xs.
Proof.
  intros Hh Hk Hm Hd. unfold filter_index. apply filter_from_ext.
  intros j Hj. now rewrite rem_period by lia.
Qed.

Lemma getOtherIssues_period (h k : Z) :
  0 <= h -> 0 <= k -> getOtherIssues (h + 300 * k) = getOtherIssues h.
Proof.
  intros Hh Hk. unfold getOtherIssues. now apply filter_index_period.
Qed.

Lemma getRecommendations_period (h k : Z) :
  0 <= h -> 0 <= k -> getRecommendations (h + 300 * k) = getRecommendations h.
Proof.
  intros Hh Hk. unfold getRecommendations. cbv zeta.
  rewrite (rem_period0 h k 100) by (lia || reflexivity).
  now rewrite !(filter_index_period h k 2) by (lia || reflexivity).
Qed.

Lemma generateParameters_period (h k : Z) :
  0 <= h -> 0 <= k -> generateParameters (h + 300 * k) = generateParameters h.
Proof.
  intros Hh Hk. unfold generateParameters.
  rewrite (filter_index_period h k 3) by (lia || reflexivity).
  unfold map_index. apply map_from_ext. intros param j Hj. cbv zeta.
  rewrite (rem_period_scaled h k j) by lia.
  now rewrite (rem_period h k (Z.of_nat (String.length (CkdParam.name param))) 3)
    by (lia || reflexivity).
Qed.

(** X1. The result depends on the fingerprint only through its residue
    modulo 300: two files of the same category whose fingerprints differ by
    a multiple of 300 get the same result. *)
Theorem result_period_300 (f1 f2 : File.t) (k : Z) :
  0 <= k ->
  fingerprint f2 = fingerprint f1 + 300 * k ->
  mediaIsImage f1 = mediaIsImage f2 ->
  generateConsistentResult f2 = generateConsistentResult f1.
Proof.
  intros Hk Hf Hc.
  pose proof (fingerprint_nonneg f1) as Hh.
  unfold generateConsistentResult. fold (fingerprint f1). fold (fingerprint f2).
  fold (mediaIsImage f1). fold (mediaIsImage f2).
  rewrite Hf, <- Hc.
  rewrite (rem_period0 _ k 2), (rem_period0 _ k 3), (rem_period0 _ k 4),
    (rem_period0 _ k 100), (rem_period0 _ k 15) by (lia || reflexivity).
  rewrite getOtherIssues_period, getRecommendations_period,
    generateParameters_period by lia.
  now rewrite !(filter_index_period _ k 3) by (lia || reflexivity).
Qed.

Lemma result_period_300_witness :
  generateConsistentResult (File.mk (utf16 "scan.png") 392 "image/png")
  = generateConsistentResult (File.mk (utf16 "scan.png") 92 "image/png").
Proof.
  apply (result_period_300 _ _ 1); [lia | reflexivity | reflexivity].
Defined.

(** ** How the fields of one result go together *)

(** X2. A result never reports pores without swelling, and it reports all
    three anomalies exactly when the fingerprint is a multiple of 12. *)
Theorem flags_coupled (file : File.t) :
  let r := generateConsistentResult file in
  (Result.hasPores r = true -> Result.hasSwelling r = true)
  /\ (Result.hasSwelling r && Result.hasShrinkage r && Result.hasPores r
      = (fingerprint file mod 12 =? 0)).
Proof.
  intros r. pose proof (fingerprint_nonneg file) as Hf.
  subst r. unfold generateConsistentResult. fold (fingerprint file).
  cbn [Result.hasPores Result.hasSwelling Result.hasShrinkage].
  rewrite !rem_is_mod by lia.
  set (f := fingerprint file) in *.
  pose proof (Z.mod_pos_bound f 2). pose proof (Z.mod_pos_bound f 3).
  pose proof (Z.mod_pos_bound f 4). pose proof (Z.mod_pos_bound f 12).
  pose proof (Z.div_mod f 2). pose proof (Z.div_mod f 3).
  pose proof (Z.div_mod f 4). pose proof (Z.div_mod f 12).
  split.
  - intros Hp. apply Z.eqb_eq in Hp. apply Z.eqb_eq. lia.
  - destruct (f mod 2 =? 0) eqn:E2, (f mod 3 =? 0) eqn:E3, (f mod 4 =? 0) eqn:E4,
      (f mod 12 =? 0) eqn:E12; cbn [andb]; try reflexivity;
      rewrite ?Z.eqb_eq, ?Z.eqb_neq in *; lia.
Qed.

(** X3. The recommendations are never empty and the cut at three never
    removes anything: an even fingerprint keeps the entries 0, 2 and 4 of the
    tier's catalog, an odd one the entries 1 and 3; so there are three
    recommendations when the swelling flag is set and two otherwise. *)
Theorem recommendations_by_parity (file : File.t) :
  let f := fingerprint file in
  let r := generateConsistentResult file in
  let catalog := tier_catalog (risk_tier f) in
  Result.recommendations r
  = (if Result.hasSwelling r
     then omap (fun i => catalog !! i) [0; 2; 4]%nat
     else omap (fun i => catalog !! i) [1; 3]%nat)
  /\ length (Result.recommendations r) = (if Result.hasSwelling r then 3%nat else 2%nat).
Proof.
  intros f r catalog.
  pose proof (fingerprint_nonneg file) as Hf. fold f in Hf.
  assert (Hr : Result.recommendations r = recommendations_of f).
  { subst r. unfold generateConsistentResult. fold (fingerprint file). fold f.
    cbn [Result.recommendations]. now apply getRecommendations_spec. }
  assert (Hs : Result.hasSwelling r = (f mod 2 =? 0)).
  { subst r. unfold generateConsistentResult. fold (fingerprint file). fold f.
    cbn [Result.hasSwelling]. now rewrite rem_is_mod by lia. }
  rewrite Hr, Hs. unfold recommendations_of. fold catalog.
  assert (E : filter_index (fun i => (f + i) mod 2 =? 0) catalog
              = filter_index (fun i => Z.rem (f mod 2 + i) 2 =? 0) catalog).
  { rewrite <- (filter_index_residue 2 f) by lia.
    unfold filter_index. apply filter_from_ext. intros j Hj.
    now rewrite rem_is_mod by lia. }
  rewrite E. subst catalog.
  destruct (mod2_cases f) as [E2|E2]; rewrite E2;
    destruct (risk_tier f); split; reflexivity.
Qed.

(** X4. For a non-image file the first parameter listed always shows the
    CKD probability in percent: its raw value is [f mod 100], the number
    whose hundredth is [ckdProbability]. *)
Theorem first_parameter_shows_probability (file : File.t) :
  let f := fingerprint file in
  let r := generateConsistentResult file in
  mediaIsImage file = false ->
  exists p rest,
    Result.parameters r = Some (p :: rest)
    /\ (exists param, In param CKD_PARAMETERS
                      /\ ParamReading.value p
                         = toFixed1 (f mod 100) ++ CkdParam.unit param)
    /\ Result.ckdProbability r = (number (f mod 100) / 100)%float.
Proof.
  intros f r Himg.
  pose proof (fingerprint_nonneg file) as Hf. fold f in Hf.
  assert (Hp : Result.parameters r
               = Some (map_index (fun param j => reading f j param)
                         (filter_index (fun i => Z.rem (f mod 3 + i) 3 =? 0)
                                       CKD_PARAMETERS))).
  { subst r. unfold generateConsistentResult. fold (mediaIsImage file).
    fold (fingerprint file). fold f. cbn [Result.parameters].
    rewrite Himg. cbn [negb]. now rewrite generateParameters_readings. }
  assert (Hck : Result.ckdProbability r = (number (f mod 100) / 100)%float).
  { subst r. unfold generateConsistentResult. fold (fingerprint file). fold f.
    cbn [Result.ckdProbability]. now rewrite rem_is_mod by lia. }
  destruct (mod3_cases f) as [E|[E|E]]; rewrite E in Hp;
    cbv [filter_index filter_from CKD_PARAMETERS map_index map_from] in Hp;
    cbn [Z.add Z.rem Z.quotrem Z.eqb snd Z.pos_div_eucl Pos.add Pos.succ
         Z.leb Z.compare Pos.compare Pos.compare_cont Z.mul Z.sub Z.opp
         Z.pos_sub Z.ltb Z.succ_double Z.double Pos.pred_double Z.pred_double]
      in Hp;
    (eexists; eexists; split; [exact Hp|]; split; [|exact Hck]);
    (eexists; split; [|unfold reading; cbn [ParamReading.value];
                       rewrite Z.mul_1_r; reflexivity]);
    cbn; tauto.
Qed.

Lemma first_parameter_shows_probability_witness :
  exists p rest,
    Result.parameters
      (generateConsistentResult (File.mk (utf16 "labs.csv") 777 "text/csv"))
    = Some (p :: rest).
Proof.
  destruct (first_parameter_shows_probability
              (File.mk (utf16 "labs.csv") 777 "text/csv") eq_refl)
    as (p & rest & H & _).
  exists p, rest. exact H.
Defined.

Lemma map_from_map {A B} (f : A -> Z -> B) (g : B -> string) (h : A -> string)
    (xs : list A) :
  (forall x j, g (f x j) = h x) ->
  forall i, map g (map_from f i xs) = map h xs.
Proof.
  intros H. induction xs as [|x r IH]; intros i; cbn [map_from map];
    [reflexivity|].
  now rewrite H, IH.
Qed.

Lemma sublist_map {A B} (g : A -> B) (l k : list A) :
  sublist l k -> sublist (map g l) (map g k).
Proof.
  induction 1; cbn [map]; [constructor | now apply sublist_skip
                                       | now apply sublist_cons].
Qed.

(** X5. Every list of a result is an order-preserving selection of its
    catalog: the other issues, the dietary and the lifestyle advice are
    sub-sequences of their catalogs, and the parameter names are a
    sub-sequence of the catalog's names. *)
Theorem lists_keep_catalog_order (file : File.t) :
  let r := generateConsistentResult file in
  sublist (Result.otherIssues r) issues
  /\ sublist (Result.dietaryRecommendations r) DIETARY_RECOMMENDATIONS
  /\ sublist (Result.lifestyleRecommendations r) LIFESTYLE_RECOMMENDATIONS
  /\ (forall ps, Result.parameters r = Some ps ->
                 sublist (map ParamReading.name ps)
                         (map CkdParam.name CKD_PARAMETERS)).
Proof.
  intros r. subst r. unfold generateConsistentResult.
  cbn [Result.otherIssues Result.dietaryRecommendations
       Result.lifestyleRecommendations Result.parameters].
  repeat split.
  - apply filter_from_sublist.
  - etransitivity; [apply sublist_take|]. apply filter_from_sublist.
  - etransitivity; [apply sublist_take|]. apply filter_from_sublist.
  - intros ps Hps.
    destruct (negb (startsWith (File.type file) "image/")); [|discriminate].
    injection Hps as <-. unfold generateParameters, map_index.
    rewrite (map_from_map _ ParamReading.name CkdParam.name)
      by (intros; reflexivity).
    apply sublist_map, filter_from_sublist.
Qed.

(** * Further properties of the accuracy hash *)

Lemma charCodeSum_from_acc (fileName : js_string) :
  forall acc,
    fold_left (fun acc char => acc + Z.of_N char) fileName acc
    = acc + charCodeSum fileName.
Proof.
  unfold charCodeSum.
  induction fileName as [|c r IH]; intros acc; cbn [fold_left]; [lia|].
  rewrite (IH (acc + Z.of_N c)), (IH (0 + Z.of_N c)). lia.
Qed.

Lemma charCodeSum_cons (c : N) (r : js_string) :
  charCodeSum (c :: r) = Z.of_N c + charCodeSum r.
Proof.
  unfold charCodeSum at 1. cbn [fold_left]. rewrite charCodeSum_from_acc. lia.
Qed.

Lemma charCodeSum_app (a b : js_string) :
  charCodeSum (a ++ b)%list = charCodeSum a + charCodeSum b.
Proof.
  induction a as [|c r IH]; [reflexivity|].
  cbn [app]. rewrite !charCodeSum_cons, IH. lia.
Qed.

Lemma charCodeSum_Permutation (a b : js_string) :
  a ≡ₚ b -> charCodeSum a = charCodeSum b.
Proof.
  induction 1 as [|x l l' _ IH|x y l|l l' l'' _ IH1 _ IH2].
  - reflexivity.
  - rewrite !charCodeSum_cons. lia.
  - rewrite !charCodeSum_cons. lia.
  - congruence.
Qed.

(** X6. Renaming a file to a rearrangement of its characters changes no
    target accuracy. *)
Theorem accuracy_of_rearranged_name (n1 n2 : js_string) (baseAccuracy : float) :
  n1 ≡ₚ n2 ->
  getAlgorithmAccuracy n1 baseAccuracy = getAlgorithmAccuracy n2 baseAccuracy.
Proof.
  intros H. rewrite !getAlgorithmAccuracy_residue.
  now rewrite (charCodeSum_Permutation n1 n2 H).
Qed.

Lemma accuracy_of_rearranged_name_witness :
  getAlgorithmAccuracy (utf16 "abc") 0.93%float
  = getAlgorithmAccuracy (utf16 "cab") 0.93%float.
Proof.
  apply accuracy_of_rearranged_name.
  change (utf16 "abc") with ([97; 98; 99]%N).
  change (utf16 "cab") with ([99; 97; 98]%N).
  etransitivity; [|apply Permutation_swap].
  apply Permutation_skip. apply Permutation_swap.
Defined.

(** X7. For every file name the target accuracies keep the ranking of the
    base accuracies: Deep Neural Network >= Ensemble Learning >= Random
    Forest >= Support Vector Machine >= Feature Extraction. *)
Theorem accuracy_ranking_kept (fileName : js_string) :
  let t := getAlgorithmAccuracy fileName in
  PrimFloat.leb (t 0.95%float) (t 0.97%float) = true
  /\ PrimFloat.leb (t 0.93%float) (t 0.95%float) = true
  /\ PrimFloat.leb (t 0.91%float) (t 0.93%float) = true
  /\ PrimFloat.leb (t 0.89%float) (t 0.91%float) = true.
Proof.
  intros t. subst t. rewrite getAlgorithmAccuracy_residue.
  pose proof (charCodeSum_nonneg fileName) as H0.
  pose proof (Z.mod_pos_bound (charCodeSum fileName) 100) as Hb.
  assert (H : ranking_kept (charCodeSum fileName mod 100) = true).
  { apply (residues_forall 100); [vm_compute; reflexivity | lia]. }
  unfold ranking_kept in H. cbv zeta in H.
  apply andb_true_iff in H as [H H4]. apply andb_true_iff in H as [H H3].
  apply andb_true_iff in H as [H1 H2]. auto.
Qed.

(** * Further properties of the session *)

(** ** The order and the times of completion *)

Lemma finish_ok_all (c : N) (n : js_string) (res : Result.t)
    (target : float -> float) (img : bool) :
  session_check finish_ok 8999 (c :: n) res target img = true.
Proof. destruct img; vm_compute; reflexivity. Qed.

Lemma finish_ok_elim (s0 : AppState) (tr : list (Timer * AppState))
    (final : AppState) :
  finish_ok s0 tr final = true ->
  completedAlgorithms final
  = ["Feature Extraction Pipeline"; "Random Forest Classification";
     "Support Vector Machine"; "Ensemble Learning Model";
     "Deep Neural Network Analysis"]
  /\ completion_times tr
     = [Some 8000; Some 5000; Some 6050; Some 7050; Some 4000].
Proof.
  unfold finish_ok. intros H. apply andb_true_iff in H as [H1 H2].
  apply bool_decide_eq_true_1 in H1, H2. now split.
Qed.

(** X8. In the first session of a file with a non-empty name, whatever the
    file, the algorithms complete shortest first, and the last tick of each
    falls at 8000, 5000, 6050, 7050 and 4000 ms in roster order: the 6 s and
    the 7 s algorithm need one tick more than duration / 50, because their
    increments 100 * 50 / duration are rounded and the sum of 120 (140) of
    them stays below 100. *)
Theorem completion_order_and_times (file : File.t) :
  File.name file <> [] ->
  exists tr final,
    elapse 2000 8999 (analyzeFile file mounted) = Some (tr, final)
    /\ completedAlgorithms final
       = ["Feature Extraction Pipeline"; "Random Forest Classification";
          "Support Vector Machine"; "Ensemble Learning Model";
          "Deep Neural Network Analysis"]
    /\ completion_times tr
       = [Some 8000; Some 5000; Some 6050; Some 7050; Some 4000]
    /\ map ticks_needed ANALYSIS_ALGORITHMS = [160; 100; 121; 141; 80]%nat.
Proof.
  intros Hn.
  destruct (session_property finish_ok 8999 finish_ok_all file Hn)
    as (tr & final & Hrun & Hok).
  apply finish_ok_elim in Hok as [H1 H2].
  exists tr, final. split; [exact Hrun|]. split; [exact H1|].
  split; [exact H2|]. vm_compute. reflexivity.
Qed.

Lemma completion_order_and_times_witness :
  exists tr final,
    elapse 2000 8999
      (analyzeFile (File.mk (utf16 "labs.csv") 777 "text/csv") mounted)
    = Some (tr, final)
    /\ completion_times tr
       = [Some 8000; Some 5000; Some 6050; Some 7050; Some 4000].
Proof.
  destruct (completion_order_and_times (File.mk (utf16 "labs.csv") 777 "text/csv"))
    as (tr & final & Hrun & _ & H & _); [discriminate|].
  exists tr, final. split; [exact Hrun|exact H].
Defined.

(** ** The overall progress bar and the caption *)

Lemma banner_run_ok_all (c : N) (n : js_string) (res : Result.t)
    (target : float -> float) (img : bool) :
  session_check banner_run_ok 9000 (c :: n) res target img = true.
Proof. destruct img; vm_compute; reflexivity. Qed.

Lemma banner_run_ok_elim (s0 : AppState) (tr : list (Timer * AppState))
    (final : AppState) :
  banner_run_ok s0 tr final = true ->
  Forall (fun st => banner_ok st = true) (steps s0 tr)
  /\ PrimFloat.eqb (analysisProgress final) 0%float = true
  /\ analysisStep final = 0.
Proof.
  unfold banner_run_ok. intros H.
  apply andb_true_iff in H as [H Hs]. apply andb_true_iff in H as [H Hp].
  apply andb_true_iff in H as [_ Hst].
  apply forallb_Forall in Hst. apply Z.eqb_eq in Hs. auto.
Qed.

(** X9. In the first session of a file with a non-empty name the overall
    progress bar never fills: it is at most 90.5 after every task, and the
    reveal resets it to 0 together with the caption index; the caption index
    stays within 0..3 and, after each firing of the 2 s caption timer at
    time t, equals [(t / 2000) mod 4]. *)
Theorem overall_bar_never_fills (file : File.t) :
  File.name file <> [] ->
  exists tr final,
    elapse 2000 9000 (analyzeFile file mounted) = Some (tr, final)
    /\ Forall (fun st => banner_ok st = true)
              (steps (analyzeFile file mounted) tr)
    /\ PrimFloat.eqb (analysisProgress final) 0%float = true
    /\ analysisStep final = 0.
Proof.
  intros Hn.
  destruct (session_property banner_run_ok 9000 banner_run_ok_all file Hn)
    as (tr & final & Hrun & Hok).
  apply banner_run_ok_elim in Hok.
  exists tr, final. split; [exact Hrun|exact Hok].
Qed.

Lemma overall_bar_never_fills_witness :
  exists tr final,
    elapse 2000 9000
      (analyzeFile (File.mk (utf16 "scan.png") 92 "image/png") mounted)
    = Some (tr, final)
    /\ analysisStep final = 0.
Proof.
  destruct (overall_bar_never_fills (File.mk (utf16 "scan.png") 92 "image/png"))
    as (tr & final & Hrun & _ & _ & H); [discriminate|].
  exists tr, final. split; [exact Hrun|exact H].
Defined.

(** ** After the reveal *)

Lemma idle_ok_all (c : N) (n : js_string) (res : Result.t)
    (target : float -> float) (img : bool) :
  session_check idle_ok 9000 (c :: n) res target img = true.
Proof. destruct img; vm_compute; reflexivity. Qed.

Lemma idle_ok_elim (s0 : AppState) (tr : list (Timer * AppState))
    (final : AppState) :
  idle_ok s0 tr final = true ->
  timers final = []
  /\ completedAlgorithms final = []
  /\ cur (processingImage final) = None
  /\ cur (isAnalyzing final) = false
  /\ now final = 9000
  /\ Forall
       (fun a =>
          PrimFloat.eqb (progress_of final (Algorithm.name a)) 0%float = true
          /\ PrimFloat.eqb (accuracy_of final (Algorithm.name a)) 0.76%float = true)
       ANALYSIS_ALGORITHMS.
Proof.
  unfold idle_ok. intros H.
  apply andb_true_iff in H as [H Hall]. apply andb_true_iff in H as [H Hnow].
  apply andb_true_iff in H as [H _]. apply andb_true_iff in H as [H Hcur].
  apply andb_true_iff in H as [H Himg]. apply andb_true_iff in H as [H Hdone].
  apply andb_true_iff in H as [Htimers _].
  apply bool_decide_eq_true_1 in Htimers, Hdone, Himg.
  apply negb_true_iff in Hcur. apply Z.eqb_eq in Hnow.
  repeat split; try assumption.
  apply forallb_Forall in Hall. eapply Forall_impl; [exact Hall|].
  cbv beta. intros a Ha. now apply andb_true_iff in Ha.
Qed.

(** With no timer pending, time passes and nothing happens. *)
Lemma elapse_idle (fuel : nat) (horizon : Z) (s : AppState) :
  timers s = [] ->
  elapse fuel horizon s = Some ([], with_now (Z.max (now s) horizon) s).
Proof.
  intros H. destruct fuel; cbn [elapse]; unfold next_due; rewrite H; reflexivity.
Qed.

(** X10. An uninterrupted first session of a file with a non-empty name
    leaves nothing behind: once the result is revealed no timer is pending,
    the run states are back at progress 0 and accuracy 0.76, the completion
    list is empty and the processed image is dropped; from then on time
    passes without any task until the next submission. *)
Theorem idle_after_reveal (file : File.t) :
  File.name file <> [] ->
  exists tr final,
    elapse 2000 9000 (analyzeFile file mounted) = Some (tr, final)
    /\ timers final = []
    /\ completedAlgorithms final = []
    /\ cur (processingImage final) = None
    /\ cur (isAnalyzing final) = false
    /\ Forall
         (fun a =>
            PrimFloat.eqb (progress_of final (Algorithm.name a)) 0%float = true
            /\ PrimFloat.eqb (accuracy_of final (Algorithm.name a)) 0.76%float
               = true)
         ANALYSIS_ALGORITHMS
    /\ forall fuel horizon,
         elapse fuel horizon final
         = Some ([], with_now (Z.max 9000 horizon) final).
Proof.
  intros Hn.
  destruct (session_property idle_ok 9000 idle_ok_all file Hn)
    as (tr & final & Hrun & Hok).
  apply idle_ok_elim in Hok as (Ht & Hd & Hi & Ha & Hnow & Hall).
  exists tr, final. repeat split; try assumption.
  intros fuel horizon. rewrite <- Hnow. now apply elapse_idle.
Qed.

Lemma idle_after_reveal_witness :
  exists tr final,
    elapse 2000 9000
      (analyzeFile (File.mk (utf16 "scan.png") 92 "image/png") mounted)
    = Some (tr, final)
    /\ timers final = [].
Proof.
  destruct (idle_after_reveal (File.mk (utf16 "scan.png") 92 "image/png"))
    as (tr & final & Hrun & H & _); [discriminate|].
  exists tr, final. split; [exact Hrun|exact H].
Defined.

(** ** A file with an empty name *)

Lemma analyzeFile_empty_name (file : File.t) :
  File.name file = [] ->
  analyzeFile file mounted
  = empty_name_session (mediaIsImage file) (generateConsistentResult file).
Proof.
  intros H. rewrite analyzeFile_submitted, H. reflexivity.
Qed.

Lemma empty_name_run_ok_all (res : Result.t) (img : bool) :
  holds_of (empty_name_run_ok img) (empty_name_session img res)
           (elapse 2000 20000 (empty_name_session img res)) = true.
Proof. destruct img; vm_compute; reflexivity. Qed.

Lemma empty_name_result (res : Result.t) (img : bool) :
  option_map (fun x => result (snd x))
             (elapse 2000 20000 (empty_name_session img res))
  = Some (Some res).
Proof. destruct img; vm_compute; reflexivity. Qed.

Lemma empty_name_run_ok_elim (img : bool) (s0 : AppState)
    (tr : list (Timer * AppState)) (final : AppState) :
  empty_name_run_ok img s0 tr final = true ->
  Forall (fun st => empty_name_ok img st = true) (steps s0 tr)
  /\ revealed final = true
  /\ timers final = [].
Proof.
  unfold empty_name_run_ok. intros H.
  apply andb_true_iff in H as [H Ht]. apply andb_true_iff in H as [Hs Hr].
  apply bool_decide_eq_true_1 in Ht. apply forallb_Forall in Hs. auto.
Qed.

(** X11. A file whose name is empty fails the guard
    [isAnalyzing && currentFileName] of the algorithm effect: no algorithm
    ever ticks, the progress stays 0 and the completion list empty; the
    result is stored after 9000 ms but stays hidden, and it is the overall
    timer that ends the analysis and reveals it, after 10 s for an image and
    15 s for any other file. *)
Theorem empty_name_is_revealed_by_the_overall_timer (file : File.t) :
  File.name file = [] ->
  exists tr final,
    elapse 2000 20000 (analyzeFile file mounted) = Some (tr, final)
    /\ Forall (fun st => empty_name_ok (mediaIsImage file) st = true)
              (steps (analyzeFile file mounted) tr)
    /\ result final = Some (generateConsistentResult file)
    /\ revealed final = true
    /\ timers final = [].
Proof.
  intros Hn. rewrite (analyzeFile_empty_name file Hn).
  generalize (generateConsistentResult file) as res. intros res.
  generalize (mediaIsImage file) as img. intros img.
  destruct (holds_of_elim _ _ _ (empty_name_run_ok_all res img))
    as (tr & final & Hrun & Hok).
  apply empty_name_run_ok_elim in Hok as (Hs & Hr & Ht).
  exists tr, final. split; [exact Hrun|]. split; [exact Hs|].
  split; [|split; assumption].
  pose proof (empty_name_result res img) as H.
  rewrite Hrun in H. cbn [option_map snd] in H. now injection H.
Qed.

Lemma empty_name_is_revealed_by_the_overall_timer_witness :
  exists tr final,
    elapse 2000 20000 (analyzeFile (File.mk [] 10 "image/png") mounted)
    = Some (tr, final)
    /\ revealed final = true.
Proof.
  destruct (empty_name_is_revealed_by_the_overall_timer
              (File.mk [] 10 "image/png") eq_refl)
    as (tr & final & Hrun & _ & _ & H & _).
  exists tr, final. split; [exact Hrun|exact H].
Defined.

(** ** A second session after the reveal *)

Lemma second_session_starts (nm1 : js_string) (img1 : bool) (res1 : Result.t)
    (file : File.t) :
  File.name file <> [] ->
  analyzeFile file (second_start nm1 img1 res1)
  = second_session nm1 img1 res1 (File.name file) (mediaIsImage file)
      (generateConsistentResult file) (getAlgorithmAccuracy (File.name file)).
Proof.
  intros Hn. rewrite analyzeFile_submitted.
  generalize (generateConsistentResult file) as res. intros res.
  generalize (mediaIsImage file) as img. intros img.
  destruct file as [[|c n] size type]; [contradiction|]. cbn [File.name].
  unfold second_session, render.
  rewrite (algorithm_effect_starts _ (c :: n)).
  - reflexivity.
  - destruct img, img1; vm_compute; reflexivity.
  - destruct img, img1; vm_compute; reflexivity.
  - destruct img, img1; vm_compute; reflexivity.
  - discriminate.
Qed.

Lemma second_run_ok_all (nm1 : js_string) (img1 : bool) (res1 : Result.t)
    (c : N) (n : js_string) (img2 : bool) (res2 : Result.t)
    (target : float -> float) :
  holds_of second_run_ok
    (second_session nm1 img1 res1 (c :: n) img2 res2 target)
    (elapse 2000 21000 (second_session nm1 img1 res1 (c :: n) img2 res2 target))
  = true.
Proof. destruct img1, img2; vm_compute; reflexivity. Qed.

Lemma second_session_result (nm1 : js_string) (img1 : bool) (res1 : Result.t)
    (c : N) (n : js_string) (img2 : bool) (res2 : Result.t)
    (target : float -> float) :
  option_map (fun x => result (snd x))
    (elapse 2000 21000 (second_session nm1 img1 res1 (c :: n) img2 res2 target))
  = Some (Some res2).
Proof. destruct img1, img2; vm_compute; reflexivity. Qed.

Lemma second_run_ok_elim (s0 : AppState) (tr : list (Timer * AppState))
    (final : AppState) :
  second_run_ok s0 tr final = true ->
  Forall (fun st => second_reveal_ok st = true) (steps s0 tr)
  /\ Forall (fun a => tick_times a tr
                      = map (Z.add 12000) (every_50ms (ticks_needed a)))
            ANALYSIS_ALGORITHMS
  /\ revealed final = true
  /\ timers final = []
  /\ now final = 21000.
Proof.
  unfold second_run_ok. intros H.
  apply andb_true_iff in H as [H Hnow]. apply andb_true_iff in H as [H Ht].
  apply andb_true_iff in H as [H Hr]. apply andb_true_iff in H as [H Hticks].
  apply andb_true_iff in H as [_ Hs].
  apply bool_decide_eq_true_1 in Ht. apply Z.eqb_eq in Hnow.
  apply forallb_Forall in Hs, Hticks.
  repeat split; try assumption.
  eapply Forall_impl; [exact Hticks|]. cbv beta. intros a Ha.
  now apply bool_decide_eq_true_1 in Ha.
Qed.

(** X12. A submission after the reveal starts a clean session.  When a
    first file (non-empty name) has been analysed and a second one
    (non-empty name) is submitted 12000 ms after the first, nothing happens
    in between, and the second session repeats the first one 12000 ms later:
    every algorithm ticks at 12050, 12100, ... for as many ticks as in a
    first session, the analysis runs with nothing revealed until the roster
    timer fires 9000 ms after the second submission, and then the result of
    the second file is shown and no timer is pending. *)
Theorem second_session_after_reveal (file1 file2 : File.t) :
  File.name file1 <> [] ->
  File.name file2 <> [] ->
  exists tr1 final1 tr2 final2,
    elapse 2000 9000 (analyzeFile file1 mounted) = Some (tr1, final1)
    /\ elapse 2000 12000 final1 = Some ([], with_now 12000 final1)
    /\ elapse 2000 21000 (analyzeFile file2 (with_now 12000 final1))
       = Some (tr2, final2)
    /\ Forall (fun st => second_reveal_ok st = true)
              (steps (analyzeFile file2 (with_now 12000 final1)) tr2)
    /\ Forall (fun a => tick_times a tr2
                        = map (Z.add 12000) (every_50ms (ticks_needed a)))
              ANALYSIS_ALGORITHMS
    /\ result final2 = Some (generateConsistentResult file2)
    /\ revealed final2 = true
    /\ timers final2 = []
    /\ now final2 = 21000.
Proof.
  intros Hn1 Hn2.
  destruct (session_property idle_ok 9000 idle_ok_all file1 Hn1)
    as (tr1 & final1 & Hrun1 & _).
  pose proof (first_session_end_state file1 tr1 final1 Hn1 Hrun1) as ->.
  set (nm1 := File.name file1) in *. set (img1 := mediaIsImage file1) in *.
  set (res1 := generateConsistentResult file1) in *.
  pose proof (second_session_starts nm1 img1 res1 file2 Hn2) as Hstart.
  unfold second_start in Hstart.
  destruct (File.name file2) as [|c n] eqn:En; [contradiction|].
  destruct (holds_of_elim _ _ _
              (second_run_ok_all nm1 img1 res1 c n (mediaIsImage file2)
                 (generateConsistentResult file2)
                 (getAlgorithmAccuracy (c :: n))))
    as (tr2 & final2 & Hrun2 & Hok).
  apply second_run_ok_elim in Hok as (Hs & Hticks & Hr & Ht & Hnow).
  exists tr1, (after_first_session nm1 img1 res1), tr2, final2.
  rewrite Hstart.
  split; [exact Hrun1|].
  split; [apply (elapse_idle 2000 12000 (after_first_session nm1 img1 res1));
          reflexivity|].
  split; [exact Hrun2|]. split; [exact Hs|]. split; [exact Hticks|].
  split; [|repeat split; assumption].
  pose proof (second_session_result nm1 img1 res1 c n (mediaIsImage file2)
                (generateConsistentResult file2)
                (getAlgorithmAccuracy (c :: n))) as H.
  rewrite Hrun2 in H. cbn [option_map snd] in H. now injection H.
Qed.

Lemma second_session_after_reveal_witness :
  exists tr1 final1 tr2 final2,
    elapse 2000 9000
      (analyzeFile (File.mk (utf16 "scan.png") 92 "image/png") mounted)
    = Some (tr1, final1)
    /\ elapse 2000 21000
         (analyzeFile (File.mk (utf16 "labs.csv") 777 "text/csv")
                      (with_now 12000 final1))
       = Some (tr2, final2)
    /\ revealed final2 = true.
Proof.
  destruct (second_session_after_reveal
              (File.mk (utf16 "scan.png") 92 "image/png")
              (File.mk (utf16 "labs.csv") 777 "text/csv"))
    as (tr1 & final1 & tr2 & final2 & H1 & _ & H2 & _ & _ & _ & Hr & _);
    [discriminate | discriminate |].
  exists tr1, final1, tr2, final2. repeat split; assumption.
Defined.

(** * The quotes banner *)

(** X13. The quote index starts at 0 and advances by one every 5 s, wrapping
    after the fifth quote: after [n] firings it is [n mod 5], so the banner
    always finds a quote to show and repeats every 25 s. *)
Theorem quote_index_cycles (n : nat) :
  currentQuote_after n = Z.of_nat n mod 5
  /\ quote_shown (currentQuote_after n)
     = INSPIRATIONAL_QUOTES !! (n mod 5)%nat
  /\ is_Some (quote_shown (currentQuote_after n))
  /\ currentQuote_after (n + 5) = currentQuote_after n.
Proof.
  assert (H : forall k, currentQuote_after k = Z.of_nat k mod 5).
  { induction k as [|k IH]; [reflexivity|].
    unfold currentQuote_after in *. rewrite Nat.iter_succ, IH.
    unfold nextQuote. change (Z.of_nat (length INSPIRATIONAL_QUOTES)) with 5.
    pose proof (Z.mod_pos_bound (Z.of_nat k) 5).
    rewrite rem_is_mod by lia.
    rewrite Nat2Z.inj_succ, <- Z.add_1_r.
    now rewrite Zplus_mod_idemp_l. }
  assert (Hs : quote_shown (currentQuote_after n)
               = INSPIRATIONAL_QUOTES !! (n mod 5)%nat).
  { rewrite H. unfold quote_shown.
    pose proof (Z.mod_pos_bound (Z.of_nat n) 5).
    destruct (Z.of_nat n mod 5 <? 0) eqn:E; [lia|].
    f_equal. change 5 with (Z.of_nat 5). rewrite <- Nat2Z.inj_mod.
    apply Nat2Z.id. }
  split; [apply H|]. split; [exact Hs|]. split.
  - rewrite Hs. apply lookup_lt_is_Some. cbn [length INSPIRATIONAL_QUOTES].
    apply Nat.mod_upper_bound. discriminate.
  - rewrite !H. rewrite Nat2Z.inj_add.
    change (Z.of_nat 5) with (1 * 5). now rewrite Z_mod_plus_full.
Qed.

(** * Bounds read off the formulas *)

(** X14. No file name moves the target accuracy of a roster algorithm by
    more than 0.05 from its base accuracy. *)
Theorem accuracy_stays_near_base (fileName : js_string) :
  Forall
    (fun a =>
       let b := Algorithm.baseAccuracy a in
       let t := getAlgorithmAccuracy fileName b in
       PrimFloat.leb (b - 0.05)%float t = true
       /\ PrimFloat.leb t (b + 0.05)%float = true)
    ANALYSIS_ALGORITHMS.
Proof.
  rewrite getAlgorithmAccuracy_residue.
  pose proof (charCodeSum_nonneg fileName) as H0.
  pose proof (Z.mod_pos_bound (charCodeSum fileName) 100) as Hb.
  assert (H : near_base (charCodeSum fileName mod 100) = true).
  { apply (residues_forall 100); [vm_compute; reflexivity | lia]. }
  unfold near_base in H. apply forallb_Forall in H.
  eapply Forall_impl; [exact H|]. cbv beta zeta. intros a Ha.
  now apply andb_true_iff in Ha.
Qed.

Lemma map_from_Forall {A B} (P : B -> Prop) (f : A -> Z -> B) (xs : list A) :
  (forall x j, In x xs -> 0 <= j -> P (f x j)) ->
  forall i, 0 <= i -> Forall P (map_from f i xs).
Proof.
  induction xs as [|x r IH]; intros H i Hi; cbn [map_from]; constructor.
  - apply H; [now left | assumption].
  - apply IH; [|lia]. intros y j Hy Hj. apply H; [now right | assumption].
Qed.

(** X15. Every parameter reading shows a whole number from 0 to 99 with a
    zero decimal, followed by the unit of its catalog entry, and carries the
    name of that entry. *)
Theorem parameter_values_are_whole_numbers (file : File.t) (ps : list ParamReading.t) :
  Result.parameters (generateConsistentResult file) = Some ps ->
  Forall
    (fun p =>
       exists param v,
         In param CKD_PARAMETERS /\ 0 <= v <= 99
         /\ ParamReading.name p = CkdParam.name param
         /\ ParamReading.value p = toFixed1 v ++ CkdParam.unit param)
    ps.
Proof.
  pose proof (fingerprint_nonneg file) as Hf.
  unfold generateConsistentResult. fold (fingerprint file).
  cbn [Result.parameters].
  destruct (negb (startsWith (File.type file) "image/")); [|discriminate].
  intros [= <-]. set (f := fingerprint file) in *.
  unfold generateParameters, map_index.
  generalize (filter_from_sublist (fun index => Z.rem (f + index) 3 =? 0)
                                  CKD_PARAMETERS 0).
  unfold filter_index.
  generalize (filter_from (fun index => Z.rem (f + index) 3 =? 0) 0 CKD_PARAMETERS).
  intros kept Hsub.
  assert (Hin : forall param, In param kept -> In param CKD_PARAMETERS).
  { intros param Hp. apply list_elem_of_In.
    eapply elem_of_sublist; [|exact Hsub]. now apply list_elem_of_In. }
  clear Hsub. apply map_from_Forall; [|lia].
  intros param j Hp Hj.
  exists param, (Z.rem (f * (j + 1)) 100).
  cbn [ParamReading.name ParamReading.value].
  split; [now apply Hin|]. split; [|split; reflexivity].
  rewrite rem_is_mod by nia.
  pose proof (Z.mod_pos_bound (f * (j + 1)) 100). lia.
Qed.

Lemma parameter_values_are_whole_numbers_witness :
  exists ps,
    Result.parameters
      (generateConsistentResult (File.mk (utf16 "labs.csv") 777 "text/csv"))
    = Some ps
    /\ Forall
         (fun p =>
            exists param v,
              In param CKD_PARAMETERS /\ 0 <= v <= 99
              /\ ParamReading.name p = CkdParam.name param
              /\ ParamReading.value p = toFixed1 v ++ CkdParam.unit param)
         ps.
Proof.
  eexists. split; [reflexivity|].
  apply (parameter_values_are_whole_numbers
           (File.mk (utf16 "labs.csv") 777 "text/csv")).
  reflexivity.
Defined.
